(** * Djangbone: a Backbone.js REST adapter over a Django queryset

    A shallow embedding of [djangbone/views.py]: the JSON encoder
    [DjangboneJSONEncoder] and the class-based view [BackboneAPIView] with
    its four handlers ([get], [post], [put], [delete]), the serialiser
    [serialize_qs] and the field projector [get_values].

    Python exceptions are values of [exn] carried by the [result] monad; the
    database table behind [base_queryset] is threaded explicitly through the
    handlers that write to it.  [datetime.isoformat] and [float] of a
    [Decimal] are written out; what depends on the model class or on the
    Unicode tables ([int] of a string, the ORM's primary-key lookup and field
    resolution, the text form of a form's error dictionary) is gathered in
    the class [Platform]. *)

From Stdlib Require Import ZArith String Ascii.
From Stdlib Require Import Floats.SpecFloat.
From stdpp Require Import gmap strings list fin_maps pretty.

Set Warnings "-register-all".
#[local] Open Scope Z_scope.

(** ** Exceptions and results *)

Inductive exn :=
  | AssertionError
  | AttributeError
  | FieldError
  | IndexError
  | KeyError
  | ValueError
  | ObjectDoesNotExist
  | MultipleObjectsReturned
  | Http404.

Inductive result (A : Type) :=
  | Ok (a : A)
  | Raise (e : exn).
Arguments Ok {A} a.
Arguments Raise {A} e.

#[global] Instance result_ret : MRet result := @Ok.
#[global] Instance result_bind : MBind result := λ A B f r,
  match r with
  | Ok a => f a
  | Raise e => Raise e
  end.
#[global] Instance result_fmap : FMap result := λ A B f r,
  match r with
  | Ok a => Ok (f a)
  | Raise e => Raise e
  end.

(** [raise_if_none e o]: a partial library call that raises [e] where the
    model returns [None]. *)
Definition raise_if_none {A} (e : exn) (o : option A) : result A :=
  match o with
  | Some a => Ok a
  | None => Raise e
  end.

(** ** Python values *)

(** A [datetime.datetime] value: the calendar fields, and the UTC offset in
    minutes of an aware value. *)
Record datetime := {
  year : Z;
  month : Z;
  day : Z;
  hour : Z;
  minute : Z;
  second : Z;
  microsecond : Z;
  utcoffset : option Z
}.

(** A [decimal.Decimal]: the finite value
    [(-1)^sign * coefficient * 10^exponent], an infinity, or a quiet or
    signaling NaN. *)
Inductive decimal :=
  | DecFinite (sign : bool) (coefficient : N) (exponent : Z)
  | DecInfinity (sign : bool)
  | DecNaN (sign : bool) (signaling : bool).

(** Python's [float] is an IEEE 754 binary64 value. *)
Abbreviation float := spec_float.

Inductive pyval :=
  | PyNone
  | PyBool (b : bool)
  | PyInt (z : Z)
  | PyFloat (f : float)
  | PyStr (s : string)
  | PyList (l : list pyval)
  | PyDict (d : gmap string pyval)
  | PyDatetime (t : datetime)
  | PyDecimal (q : decimal)
  | PyObject (id : nat).

(** Truth value testing, as [if x:] does it. *)
Definition truthy (x : pyval) : bool :=
  match x with
  | PyNone => false
  | PyBool b => b
  | PyInt z => negb (Z.eqb z 0)
  | PyFloat f => match f with S754_zero _ => false | _ => true end
  | PyStr s => negb (String.eqb s "")
  | PyList l => negb (Nat.eqb (length l) 0)
  | PyDict d => negb (Nat.eqb (size d) 0)
  | PyDatetime _ => true
  | PyDecimal q =>
      match q with
      | DecFinite _ c _ => negb (N.eqb c 0)
      | _ => true
      end
  | PyObject _ => true
  end.

(** [d.get(k)]: the value, or [None] for a missing key. *)
Definition dict_get (d : gmap string pyval) (k : string) : pyval :=
  default PyNone (d !! k).

(** [d[k]]: the value, or [KeyError]. *)
Definition dict_getitem (d : gmap string pyval) (k : string) : result pyval :=
  raise_if_none KeyError (d !! k).

(** [l[i]] for a non-negative constant index. *)
Definition list_getitem {A} (l : list A) (i : nat) : result A :=
  raise_if_none IndexError (l !! i).

(** ** [datetime.isoformat]

    [YYYY-MM-DDTHH:MM:SS], then [.mmmmmm] unless the microsecond is 0, then
    [+HH:MM] or [-HH:MM] for an aware value. *)

Definition digit_of (c : ascii) : option Z :=
  let n := Z.of_N (N_of_ascii c) in
  if (48 <=? n) && (n <=? 57) then Some (n - 48) else None.

Definition digit_char (d : Z) : ascii := ascii_of_N (Z.to_N (48 + d)).

(** [%0wd] for a number below [10^w]. *)
Fixpoint fixed (w : nat) (z : Z) : list ascii :=
  match w with
  | O => []
  | S w' => fixed w' (z / 10) ++ [digit_char (z mod 10)]
  end.

Definition zone_chars (offset : option Z) : list ascii :=
  match offset with
  | None => []
  | Some off =>
      (if off <? 0 then "-"%char else "+"%char)
      :: fixed 2 (Z.abs off / 60) ++ ":"%char :: fixed 2 (Z.abs off mod 60)
  end.

Definition iso_chars (t : datetime) : list ascii :=
  fixed 4 (year t) ++ "-"%char :: fixed 2 (month t) ++ "-"%char :: fixed 2 (day t)
  ++ "T"%char :: fixed 2 (hour t) ++ ":"%char :: fixed 2 (minute t)
  ++ ":"%char :: fixed 2 (second t)
  ++ (if microsecond t =? 0 then [] else "."%char :: fixed 6 (microsecond t))
  ++ zone_chars (utcoffset t).

Definition isoformat (t : datetime) : string := string_of_list_ascii (iso_chars t).

(** The values the [datetime] constructor accepts. *)

Definition leap (y : Z) : bool :=
  ((y mod 4 =? 0) && negb (y mod 100 =? 0)) || (y mod 400 =? 0).

Definition days_in_month (y m : Z) : Z :=
  match m with
  | 2 => if leap y then 29 else 28
  | 4 | 6 | 9 | 11 => 30
  | _ => 31
  end.

Definition between (lo x hi : Z) : bool := (lo <=? x) && (x <=? hi).

Definition valid_datetime (t : datetime) : bool :=
  between 1 (year t) 9999 && between 1 (month t) 12
  && between 1 (day t) (days_in_month (year t) (month t))
  && between 0 (hour t) 23 && between 0 (minute t) 59 && between 0 (second t) 59
  && between 0 (microsecond t) 999999
  && match utcoffset t with
     | Some off => between (-1439) off 1439
     | None => true
     end.

(** *** A reader of ISO 8601

    The extended format of a complete date and time of day, with an
    optional decimal fraction of six digits and an optional zone
    designator: what a client has to read back. *)

Fixpoint read_digits (w : nat) (acc : Z) (cs : list ascii) : option (Z * list ascii) :=
  match w with
  | O => Some (acc, cs)
  | S w' =>
      match cs with
      | c :: cs' => d ← digit_of c; read_digits w' (10 * acc + d) cs'
      | [] => None
      end
  end.

Definition expect (c : ascii) (cs : list ascii) : option (list ascii) :=
  match cs with
  | c' :: cs' => if Ascii.eqb c c' then Some cs' else None
  | [] => None
  end.

Definition read_offset (cs : list ascii) : option Z :=
  '(hh, cs) ← read_digits 2 0 cs;
  cs ← expect ":" cs;
  '(mm, cs) ← read_digits 2 0 cs;
  match cs with
  | [] => Some (hh * 60 + mm)
  | _ => None
  end.

Definition read_zone (cs : list ascii) : option (option Z) :=
  match cs with
  | [] => Some None
  | "+"%char :: cs' => Some <$> read_offset cs'
  | "-"%char :: cs' => (λ z, Some (- z)) <$> read_offset cs'
  | _ => None
  end.

Definition read_fraction (cs : list ascii) : option (Z * list ascii) :=
  match cs with
  | "."%char :: cs' => read_digits 6 0 cs'
  | _ => Some (0, cs)
  end.

Definition parse_iso8601 (s : string) : option datetime :=
  '(y, cs) ← read_digits 4 0 (list_ascii_of_string s);
  cs ← expect "-" cs;
  '(mo, cs) ← read_digits 2 0 cs;
  cs ← expect "-" cs;
  '(d, cs) ← read_digits 2 0 cs;
  cs ← expect "T" cs;
  '(h, cs) ← read_digits 2 0 cs;
  cs ← expect ":" cs;
  '(mi, cs) ← read_digits 2 0 cs;
  cs ← expect ":" cs;
  '(s, cs) ← read_digits 2 0 cs;
  '(us, cs) ← read_fraction cs;
  off ← read_zone cs;
  let t := {| year := y; month := mo; day := d; hour := h; minute := mi;
              second := s; microsecond := us; utcoffset := off |} in
  if valid_datetime t then Some t else None.

(** ** [float(d)] for a [Decimal] [d]

    [Decimal.__float__] raises [ValueError] for a signaling NaN and
    otherwise hands the decimal's text to [float], which rounds correctly:
    to the nearest binary64 value, to the one with an even significand when
    two are as near, and to an infinity from [2^1024 - 2^970] on.  Values
    are measured here in units of [2^-1074], the smallest positive
    binary64 value, so that every finite binary64 value is an integer. *)

(** [n / d] rounded to the nearest integer, halves to the even one. *)
Definition round_half_even (n d : Z) : Z :=
  let q := n / d in
  let r := n mod d in
  if 2 * r <? d then q
  else if d <? 2 * r then q + 1
  else if Z.even q then q else q + 1.

(** The exponent [k] of the binade of [N / d]: the least [k >= 0] with
    [N / d < 2^53 * 2^k]. *)
Definition binary64_exponent (N d : Z) : Z :=
  let k1 := Z.max 0 (Z.log2 N - Z.log2 d - 53) in
  if 2 ^ 53 * (d * 2 ^ k1) <=? N then k1 + 1 else k1.

(** The binary64 value of sign [s] nearest to [n / d], for [n, d > 0]. *)
Definition float_of_ratio (s : bool) (n d : Z) : float :=
  let N := n * 2 ^ 1074 in
  let k := binary64_exponent N d in
  let m := round_half_even N (d * 2 ^ k) in
  let k' := if m =? 2 ^ 53 then k + 1 else k in
  let m' := if m =? 2 ^ 53 then 2 ^ 52 else m in
  if m' =? 0 then S754_zero s
  else if 2045 <? k' then S754_infinity s
  else S754_finite s (Z.to_pos m') (k' - 1074).

(** [c * 10^e] as a ratio of two positive integers. *)
Definition decimal_ratio (c : positive) (e : Z) : Z * Z :=
  if 0 <=? e then (Z.pos c * 10 ^ e, 1) else (Z.pos c, 10 ^ (- e)).

Definition float_of_decimal (q : decimal) : result float :=
  match q with
  | DecFinite s N0 _ => Ok (S754_zero s)
  | DecFinite s (Npos c) e =>
      let '(n, d) := decimal_ratio c e in Ok (float_of_ratio s n d)
  | DecInfinity s => Ok (S754_infinity s)
  | DecNaN _ false => Ok S754_nan
  | DecNaN _ true => Raise ValueError
  end.

(** The value of a finite binary64 in units of [2^-1074], and the binary64
    values among the values of [spec_float]. *)
Definition float_units (f : float) : Z :=
  match f with
  | S754_finite s m e => (if s then -1 else 1) * (Z.pos m * 2 ^ (e + 1074))
  | _ => 0
  end.

Definition is_finite (f : float) : bool :=
  match f with
  | S754_zero _ | S754_finite _ _ _ => true
  | _ => false
  end.

Definition binary64 (f : float) : bool := valid_binary 53 1024 f.

Definition float_sign (f : float) : option bool :=
  match f with
  | S754_zero s | S754_infinity s | S754_finite s _ _ => Some s
  | S754_nan => None
  end.

Definition even_significand (f : float) : bool :=
  match f with
  | S754_finite _ m _ => Z.even (Z.pos m)
  | _ => true
  end.

(** [f] is the number of sign [s] and magnitude [n / d], for [n, d > 0],
    rounded to binary64 as IEEE 754 rounds to nearest: a binary64 value of
    that sign; an infinity when the magnitude is [2^1024 - 2^970] or more;
    below that a finite value than which no finite binary64 value is
    nearer to the number, and of even significand when another is as
    near. *)
Definition rounds_to (s : bool) (n d : Z) (f : float) : Prop :=
  binary64 f = true
  ∧ float_sign f = Some s
  ∧ if is_finite f then
      n < (2 ^ 1024 - 2 ^ 970) * d
      ∧ ∀ g, binary64 g = true → is_finite g = true →
          let x := (if s then -1 else 1) * (n * 2 ^ 1074) in
          Z.abs (x - float_units f * d) <= Z.abs (x - float_units g * d)
          ∧ (float_units g ≠ float_units f →
             Z.abs (x - float_units f * d) = Z.abs (x - float_units g * d) →
             even_significand f = true)
    else (2 ^ 1024 - 2 ^ 970) * d <= n.

(** ** Sequence slicing *)

(** One bound of [l[start:stop]] on a sequence of length [len]: a negative
    bound counts from the end, and the outcome is clamped to [0..len]. *)
Definition slice_bound (len : Z) (i : option Z) (dflt : Z) : Z :=
  match i with
  | None => dflt
  | Some i => Z.max 0 (Z.min len (if i <? 0 then i + len else i))
  end.

Definition py_slice {A} (l : list A) (start stop : option Z) : list A :=
  let len := Z.of_nat (length l) in
  let lo := slice_bound len start 0 in
  let hi := slice_bound len stop len in
  take (Z.to_nat (hi - lo)) (drop (Z.to_nat lo) l).

(** ** JSON documents

    The text [JSONEncoder.encode] produces is kept as the document it
    denotes. *)

Inductive json :=
  | JNull
  | JBool (b : bool)
  | JInt (z : Z)
  | JFloat (f : float)
  | JString (s : string)
  | JArray (l : list json)
  | JObject (m : gmap string json).

(** ** Model instances and the table behind [base_queryset] *)

(** A model instance, read by attribute name. *)
Record record := { attrs : gmap string pyval }.

(** [getattr(obj, name)]. *)
Definition getattr (obj : record) (name : string) : result pyval :=
  raise_if_none AttributeError (attrs obj !! name).

(** The rows [base_queryset] denotes, in the queryset's order. *)
Abbreviation store := (list record).

(** ** What the view calls and does not define *)

Class Platform := {
  (** [int(s)] for a string [s], [None] for [ValueError]. *)
  py_int : string → option Z;
  (** The exact primary-key lookup behind [filter(pk=k)] and [get(pk=k)]:
      the rows it selects, or [None] when the field rejects [k] with
      [ValueError]. *)
  pk_exact : pyval → option (record → bool);
  (** The fields of the model, each with the way a row is read for it:
      what [values()] lists when it is given no name. *)
  model_fields : list (string * (record → pyval));
  (** A name given to [values]: the way a row is read for it, or [None]
      when the name does not resolve, which is a [FieldError]. *)
  values_field : string → option (record → pyval);
  (** [str(form.errors)]. *)
  str_errors : gmap string (list string) → string
}.

(** ** [DjangboneJSONEncoder] *)

Definition default (obj : pyval) : result pyval :=
  match obj with
  | PyDatetime t => Ok (PyStr (isoformat t))
  | PyDecimal q => PyFloat <$> float_of_decimal q
  | _ => Ok PyNone
  end.

(** All the values of a dict of outcomes, if they all are there. *)
Definition map_sequence {A} (m : gmap string (option A)) : option (gmap string A) :=
  map_fold (λ k o acc, x ← o; m' ← acc; Some (<[k := x]> m')) (Some ∅) m.

(** The walk of [json.JSONEncoder] over a value: the JSON-native types are
    written as they are, anything else is handed to [other].  [None] stands
    for the [ValueError] that leaves [other]. *)
Fixpoint iterencode (other : pyval → option json) (o : pyval) : option json :=
  match o with
  | PyNone => Some JNull
  | PyBool b => Some (JBool b)
  | PyInt z => Some (JInt z)
  | PyFloat f => Some (JFloat f)
  | PyStr s => Some (JString s)
  | PyList l => JArray <$> mapM (iterencode other) l
  | PyDict d => JObject <$> map_sequence (iterencode other <$> d)
  | _ => other o
  end.

(** [DjangboneJSONEncoder().encode]: a value that is not JSON-native is
    replaced by [default] of it, and that is encoded in turn.  [default]
    returns a [str], a [float] or [None], so the second walk never reaches
    its own fallback; the one exception [default] raises is
    [ValueError]. *)
Definition DjangboneJSONEncoder (o : pyval) : option json :=
  iterencode (λ o', match default o' with
                    | Ok x => iterencode (λ _, Some JNull) x
                    | Raise _ => None
                    end) o.

(** ** Querysets and lists *)

(** What the view slices, iterates and projects: a Django [QuerySet] or a
    plain list.  Of a [QuerySet], [rows] are the rows its query selects in
    the table and [cache] is its result cache, empty until the queryset has
    been evaluated. *)
Inductive pyseq :=
  | QuerySet (rows : list record) (cache : option (list record))
  | PyListOf (rows : list record).

(** [for obj in q]: an evaluated queryset is read from its cache. *)
Definition seq_rows (q : pyseq) : list record :=
  match q with
  | QuerySet rows None => rows
  | QuerySet _ (Some cached) => cached
  | PyListOf rows => rows
  end.

(** [callable(getattr(qs, 'values', None))]. *)
Definition has_values (q : pyseq) : bool :=
  match q with
  | QuerySet _ _ => true
  | PyListOf _ => false
  end.

Definition negative (i : option Z) : bool :=
  match i with
  | Some i => i <? 0
  | None => false
  end.

(** [q[start:stop]].  A [QuerySet] asserts that neither bound is negative;
    once its cache is filled the slice is a slice of the cached list, before
    that it is a new, unevaluated [QuerySet]. *)
Definition getslice (q : pyseq) (start stop : option Z) : result pyseq :=
  match q with
  | QuerySet rows cache =>
      if negative start || negative stop then Raise AssertionError
      else match cache with
           | Some cached => Ok (PyListOf (py_slice cached start stop))
           | None => Ok (QuerySet (py_slice rows start stop) None)
           end
  | PyListOf rows => Ok (PyListOf (py_slice rows start stop))
  end.

(** [base_queryset.filter(pk=k)] on the table [db]. *)
Definition filter_pk `{Platform} (db : store) (k : pyval) : result (list record) :=
  p ← raise_if_none ValueError (pk_exact k);
  Ok (List.filter p db).

(** [base_queryset.get(pk=k)]. *)
Definition get_pk `{Platform} (db : store) (k : pyval) : result record :=
  rows ← filter_pk db k;
  match rows with
  | [] => Raise ObjectDoesNotExist
  | [obj] => Ok obj
  | _ => Raise MultipleObjectsReturned
  end.

(** [qs.delete()] for [qs = base_queryset.filter(pk=k)]: the table without
    the rows the lookup selects. *)
Definition delete_pk `{Platform} (db : store) (k : pyval) : store :=
  match pk_exact k with
  | Some p => List.filter (λ obj, negb (p obj)) db
  | None => db
  end.

(** One dict of [values]: the row read under every name. *)
Definition values_row (readers : list (string * (record → pyval))) (obj : record)
    : gmap string pyval :=
  foldl (λ d reader, <[reader.1 := reader.2 obj]> d) ∅ readers.

(** [qs.values( *fields )].  The names are resolved when the call is made,
    whatever rows there are; with no name given every field of the model is
    listed.  The rows are queried afresh, not read from the cache of
    [qs]. *)
Definition values `{Platform} (q : pyseq) (fields : list string)
    : result (list (gmap string pyval)) :=
  match q with
  | QuerySet rows _ =>
      readers ← match fields with
                | [] => Ok model_fields
                | _ => mapM (λ name,
                               read ← raise_if_none FieldError (values_field name);
                               Ok (name, read)) fields
                end;
      Ok (values_row readers <$> rows)
  | PyListOf _ => Raise AttributeError
  end.

(** ** Requests, responses and forms *)

Record HttpRequest := {
  body : string;
  (** The query string, one value per parameter. *)
  GET : gmap string string
}.

Inductive content :=
  | Text (s : string)
  | JsonText (j : json).

Record HttpResponse := {
  response_content : content;
  status : Z;
  mimetype : option string
}.

(** A bound form, as far as the view uses it.  [set_request] is there when
    the form class defines it, and gives the form after the call. *)
Inductive form := Form {
  set_request : option (HttpRequest → form);
  is_valid : store → bool;
  errors : store → gmap string (list string);
  save : store → record * store
}.

(** [HttpResponse(text, status=code)]. *)
Definition text_response (text : string) (code : Z) : HttpResponse :=
  {| response_content := Text text; status := code; mimetype := None |}.

(** [if hasattr(form, 'set_request'): form.set_request(request)]. *)
Definition offer_request (request : HttpRequest) (f : form) : form :=
  match set_request f with
  | Some set => set request
  | None => f
  end.

(** What the client sees of a handler's outcome: the response's status, 404
    for [Http404], 500 for any other exception that leaves the view. *)
Definition status_of (r : result HttpResponse) : Z :=
  match r with
  | Ok resp => status resp
  | Raise Http404 => 404
  | Raise _ => 500
  end.

(** ** [BackboneAPIView] *)

Record BackboneAPIView := {
  (** The result cache of the queryset object [base_queryset]: a class
      attribute, so one object for every request, evaluated at most once.
      The rows of its query are those of the table the handlers are run
      on. *)
  base_cache : option (list record);
  serialize_fields : list string;
  custom_values : gmap string (record → pyval);
  values_override : option (record → gmap string pyval);
  pk : string;
  page_size : option Z;
  page_param_name : string;
  add_form_class : option (pyval → form);
  edit_form_class : option (pyval → record → form);
  (** [json_encoder.encode], [None] for [ValueError]. *)
  json_encoder : pyval → option json;
  (** [json_decoder.decode], [None] for [ValueError]. *)
  json_decoder : string → option pyval
}.

(** The HTTP methods the class has a handler for. *)
Inductive http_method := GET_ | POST_ | PUT_ | DELETE_.

Section View.
Context `{Platform}.
Variable self : BackboneAPIView.

Definition success_response (output : json) : HttpResponse :=
  {| response_content := JsonText output;
     status := 200;
     mimetype := Some "application/json" |}.

Definition validation_error_response (form_errors : gmap string (list string))
    : HttpResponse :=
  text_response ("<p>ERROR: validation failed</p>" +:+ str_errors form_errors) 400.

(** [self.json_encoder.encode(data)]. *)
Definition encode (data : pyval) : result json :=
  raise_if_none ValueError (json_encoder self data).

(** The dict of one row in the second branch of [get_values]: the plain
    fields first, then every entry of [custom_values] assigned over
    them. *)
Definition plain_values (obj : record) : result (gmap string pyval) :=
  pairs ← mapM (λ name, x ← getattr obj name; Ok (name, x))
               (serialize_fields self);
  Ok (foldl (λ d kv, <[kv.1 := kv.2]> d) ∅ pairs).

Definition row_values (obj : record) : result (gmap string pyval) :=
  vals ← plain_values obj;
  Ok (map_fold (λ name method vals, <[name := method obj]> vals)
               vals (custom_values self)).

Definition get_values (qs : pyseq) : result (list (gmap string pyval)) :=
  match values_override self with
  | Some override => Ok (override <$> seq_rows qs)
  | None =>
      if negb (Nat.eqb (size (custom_values self)) 0) || negb (has_values qs)
      then mapM row_values (seq_rows qs)
      else values qs (serialize_fields self)
  end.

(** The projection of one record: what [get_values] yields for it when it
    is handed over in a plain list, as the single-object path does. *)
Definition projection (obj : record) : result (gmap string pyval) :=
  match values_override self with
  | Some override => Ok (override obj)
  | None => row_values obj
  end.

(** [int(self.request.GET.get(self.page_param_name, 1))], [None] for
    [ValueError]. *)
Definition page_number (request : HttpRequest) : option Z :=
  match GET request !! page_param_name self with
  | Some s => py_int s
  | None => Some 1
  end.

Definition page_offset (request : HttpRequest) (size : Z) : Z :=
  match page_number request with
  | Some n => (n - 1) * size
  | None => 0
  end.

(** The pagination block of [serialize_qs]. *)
Definition paginate (request : HttpRequest) (queryset : pyseq) : result pyseq :=
  match page_size self with
  | Some size =>
      let offset := page_offset request size in
      getslice queryset (Some offset) (Some (offset + size))
  | None => Ok queryset
  end.

Definition serialize_qs (request : HttpRequest) (kwargs : gmap string pyval)
    (queryset : pyseq) (single_object : bool) : result json :=
  if single_object || truthy (dict_get kwargs (pk self)) then
    first ← getslice queryset None (Some 1);
    vals ← get_values first;
    data ← list_getitem vals 0;
    encode (PyDict data)
  else
    queryset ← paginate request queryset;
    vals ← get_values queryset;
    encode (PyList (PyDict <$> vals)).

(** [len(qs)] evaluates the queryset, so what reaches [serialize_qs] has
    its cache filled. *)
Definition get_single_item (request : HttpRequest) (kwargs : gmap string pyval)
    (db : store) : result HttpResponse :=
  let try :=
    k ← dict_getitem kwargs (pk self);
    rows ← filter_pk db k;
    if Nat.eqb (length rows) 1 then Ok (QuerySet rows (Some rows))
    else Raise AssertionError in
  match try with
  | Raise AssertionError => Raise Http404
  | Raise e => Raise e
  | Ok qs =>
      output ← serialize_qs request kwargs qs false;
      Ok (success_response output)
  end.

(** [qs] is the object [base_queryset] itself, with the cache it has. *)
Definition get_collection (request : HttpRequest) (kwargs : gmap string pyval)
    (db : store) : result HttpResponse :=
  let qs := QuerySet db (base_cache self) in
  output ← serialize_qs request kwargs qs false;
  Ok (success_response output).

Definition get (request : HttpRequest) (kwargs : gmap string pyval)
    (db : store) : result HttpResponse :=
  if truthy (dict_get kwargs (pk self)) then get_single_item request kwargs db
  else get_collection request kwargs db.

(** The common tail of [post] and [put]: the form is offered the request,
    then saved or its errors reported. *)
Definition run_form (request : HttpRequest) (kwargs : gmap string pyval)
    (form0 : form) (db : store) : result HttpResponse * store :=
  let form := offer_request request form0 in
  if is_valid form db then
    let '(obj, db') := save form db in
    (output ← serialize_qs request kwargs (PyListOf [obj]) true;
     Ok (success_response output), db')
  else (Ok (validation_error_response (errors form db)), db).

Definition post (request : HttpRequest) (kwargs : gmap string pyval)
    (db : store) : result HttpResponse * store :=
  match add_form_class self with
  | None =>
      (Ok (text_response "POST not supported" 405), db)
  | Some form_class =>
      match json_decoder self (body request) with
      | None =>
          (Ok (text_response "Invalid POST JSON" 400), db)
      | Some request_dict =>
          run_form request kwargs (form_class request_dict) db
      end
  end.

Definition put (request : HttpRequest) (kwargs : gmap string pyval)
    (db : store) : result HttpResponse * store :=
  match edit_form_class self, kwargs !! pk self with
  | Some form_class, Some k =>
      let try :=
        request_dict ← raise_if_none ValueError (json_decoder self (body request));
        instance ← get_pk db k;
        Ok (request_dict, instance) in
      match try with
      | Raise ValueError =>
          (Ok (text_response "Invalid PUT JSON" 400), db)
      | Raise ObjectDoesNotExist => (Raise Http404, db)
      | Raise e => (Raise e, db)
      | Ok (request_dict, instance) =>
          run_form request kwargs (form_class request_dict instance) db
      end
  | _, _ =>
      (Ok (text_response "PUT not supported" 405), db)
  end.

(** [if qs:] evaluates the queryset; [qs.delete()] comes after
    [serialize_qs] has returned. *)
Definition delete (request : HttpRequest) (kwargs : gmap string pyval)
    (db : store) : result HttpResponse * store :=
  match kwargs !! pk self with
  | None =>
      (Ok (text_response "DELETE is not supported for collections" 405), db)
  | Some k =>
      match filter_pk db k with
      | Raise e => (Raise e, db)
      | Ok rows =>
          if negb (Nat.eqb (length rows) 0) then
            match serialize_qs request kwargs (QuerySet rows (Some rows)) false with
            | Ok output => (Ok (success_response output), delete_pk db k)
            | Raise e => (Raise e, db)
            end
          else (Raise Http404, db)
      end
  end.

(** What [get_collection] answers once [serialize_qs] has cut the page
    [queryset]: the rows projected, encoded as an array and wrapped by
    [success_response]. *)
Definition answer_of (queryset : pyseq) : result HttpResponse :=
  vals ← get_values queryset;
  output ← encode (PyList (PyDict <$> vals));
  Ok (success_response output).

(** The answer for the page [page] of a table, cut out of a queryset that
    has not been evaluated. *)
Definition page_response (page : list record) : result HttpResponse :=
  answer_of (QuerySet page None).

(** [View.dispatch]: the handler named after the method. *)
Definition dispatch (m : http_method) (request : HttpRequest)
    (kwargs : gmap string pyval) (db : store) : result HttpResponse * store :=
  match m with
  | GET_ => (get request kwargs db, db)
  | POST_ => post request kwargs db
  | PUT_ => put request kwargs db
  | DELETE_ => delete request kwargs db
  end.

(** *** The cache of [base_queryset] after a request

    Only [get_collection] hands the object [base_queryset] itself to
    [serialize_qs]; every other use of it goes through [filter] or [get],
    which work on a copy.  The object is evaluated, by the query it runs on
    the table then, when [get_values] iterates it: no page was sliced off,
    and the rows are read one by one rather than through [values]. *)

(** [get_values] reads [qs] row by row, in its first two branches. *)
Definition iterates (qs : pyseq) : bool :=
  match values_override self with
  | Some _ => true
  | None => negb (Nat.eqb (size (custom_values self)) 0) || negb (has_values qs)
  end.

(** The result cache of [base_queryset] once [get] has run on the table
    [db]. *)
Definition evaluated_by_get (kwargs : gmap string pyval) (db : store)
    : option (list record) :=
  match base_cache self with
  | Some cached => Some cached
  | None =>
      if truthy (dict_get kwargs (pk self)) then None
      else match page_size self with
           | Some _ => None
           | None => if iterates (QuerySet db None) then Some db else None
           end
  end.
End View.

(** The view as the next request finds it. *)
Definition after_get `{Platform} (self : BackboneAPIView)
    (kwargs : gmap string pyval) (db : store) : BackboneAPIView :=
  {| base_cache := evaluated_by_get self kwargs db;
     serialize_fields := serialize_fields self;
     custom_values := custom_values self;
     values_override := values_override self;
     pk := pk self;
     page_size := page_size self;
     page_param_name := page_param_name self;
     add_form_class := add_form_class self;
     edit_form_class := edit_form_class self;
     json_encoder := json_encoder self;
     json_decoder := json_decoder self |}.

(** ** Models to run the view on

    A table of widgets with an integer primary key held in the attribute
    [id], and a table of labels with a text primary key; [int] as it reads
    ASCII text; the error dictionary printed field by field. *)
Module Example.

(** [int(s)] on ASCII text, base 10: surrounding whitespace is dropped, one
    sign is allowed, and what is left must be one or more digits. *)

Definition is_space (c : ascii) : bool :=
  match N_of_ascii c with
  | 9%N | 10%N | 11%N | 12%N | 13%N | 32%N => true
  | _ => false
  end.

Fixpoint lstrip (cs : list ascii) : list ascii :=
  match cs with
  | c :: cs' => if is_space c then lstrip cs' else cs
  | [] => []
  end.

Definition strip (cs : list ascii) : list ascii :=
  reverse (lstrip (reverse (lstrip cs))).

Fixpoint digits_value (acc : Z) (cs : list ascii) : option Z :=
  match cs with
  | [] => Some acc
  | c :: cs' =>
      match digit_of c with
      | Some d => digits_value (10 * acc + d) cs'
      | None => None
      end
  end.

Definition unsigned_int (cs : list ascii) : option Z :=
  match cs with
  | [] => None
  | _ => digits_value 0 cs
  end.

Definition ascii_int (s : string) : option Z :=
  match strip (list_ascii_of_string s) with
  | "-"%char :: cs => Z.opp <$> unsigned_int cs
  | "+"%char :: cs => unsigned_int cs
  | cs => unsigned_int cs
  end.

Definition has_id (z : Z) (obj : record) : bool :=
  match attrs obj !! "id" with
  | Some (PyInt i) => Z.eqb i z
  | _ => false
  end.

Definition ex_pk_exact (k : pyval) : option (record → bool) :=
  match k with
  | PyInt z => Some (has_id z)
  | PyStr s => has_id <$> ascii_int s
  | PyNone => Some (λ _, false)
  | _ => None
  end.

(** The column of a row: the attribute of that name. *)
Definition column (name : string) (obj : record) : pyval :=
  dict_get (attrs obj) name.

Definition ex_values_field (name : string) : option (record → pyval) :=
  if bool_decide (name ∈ ["id"; "name"]) then Some (column name) else None.

Definition ex_str_errors (e : gmap string (list string)) : string :=
  foldr (λ kv acc, kv.1 +:+ ": " +:+ String.concat ", " kv.2 +:+ "; " +:+ acc)
        "" (map_to_list e).

#[export] Instance platform : Platform := {|
  py_int := ascii_int;
  pk_exact := ex_pk_exact;
  model_fields := [("id", column "id"); ("name", column "name")];
  values_field := ex_values_field;
  str_errors := ex_str_errors
|}.

(** A table of widgets and views over it. *)

Definition widget (id : Z) (name : string) : record :=
  {| attrs := <["id" := PyInt id]> (<["name" := PyStr name]> ∅) |}.

Definition widgets : store :=
  [widget 1 "a"; widget 2 "b"; widget 3 "c"; widget 4 "d"; widget 5 "e"].

(** A decoder that accepts the empty object only. *)
Definition ex_decoder (s : string) : option pyval :=
  if String.eqb s "{}" then Some (PyDict ∅) else None.

(** A form that never validates. *)
Definition rejecting (field message : string) : form :=
  {| set_request := None;
     is_valid := λ _, false;
     errors := λ _, {[field := [message]]};
     save := λ db, (widget 0 "", db) |}.

Definition widget_view (size : option Z) : BackboneAPIView :=
  {| base_cache := None;
     serialize_fields := ["id"; "name"];
     custom_values := ∅;
     values_override := None;
     pk := "id";
     page_size := size;
     page_param_name := "p";
     add_form_class := Some (λ _, rejecting "name" "required");
     edit_form_class := Some (λ _ _, rejecting "name" "required");
     json_encoder := DjangboneJSONEncoder;
     json_decoder := ex_decoder |}.

(** A read-only view: the class attributes as the source declares them. *)
Definition plain_view : BackboneAPIView :=
  {| base_cache := None;
     serialize_fields := [];
     custom_values := ∅;
     values_override := None;
     pk := "id";
     page_size := None;
     page_param_name := "p";
     add_form_class := None;
     edit_form_class := None;
     json_encoder := DjangboneJSONEncoder;
     json_decoder := ex_decoder |}.

(** A view with a computed field that shadows the plain field [name]. *)
Definition shout (obj : record) : pyval :=
  match attrs obj !! "name" with
  | Some (PyStr s) => PyStr (s +:+ "!")
  | _ => PyNone
  end.

Definition computed_view : BackboneAPIView :=
  {| base_cache := None;
     serialize_fields := ["id"; "name"];
     custom_values := {["name" := shout]};
     values_override := None;
     pk := "id";
     page_size := None;
     page_param_name := "p";
     add_form_class := None;
     edit_form_class := None;
     json_encoder := DjangboneJSONEncoder;
     json_decoder := ex_decoder |}.

Definition request (content : string) (query : gmap string string) : HttpRequest :=
  {| body := content; GET := query |}.

(** A form that always validates and saves a fixed record at the end of the
    table, and a view that creates and edits with it. *)
Definition accepting (obj : record) : form :=
  {| set_request := None;
     is_valid := λ _, true;
     errors := λ _, ∅;
     save := λ db, (obj, (db ++ [obj])%list) |}.

Definition writable_view (size : option Z) : BackboneAPIView :=
  {| base_cache := None;
     serialize_fields := ["id"; "name"];
     custom_values := ∅;
     values_override := None;
     pk := "id";
     page_size := size;
     page_param_name := "p";
     add_form_class := Some (λ _, accepting (widget 6 "f"));
     edit_form_class := Some (λ _ obj, accepting obj);
     json_encoder := DjangboneJSONEncoder;
     json_decoder := ex_decoder |}.

(** A table in which two rows carry the key 3. *)
Definition twins : store :=
  [widget 1 "a"; widget 3 "c"; widget 3 "d"].

(** A model whose primary key is a text field: a key is looked up as the
    text it is, and no key is rejected. *)

Definition has_text_id (s : string) (obj : record) : bool :=
  match attrs obj !! "id" with
  | Some (PyStr i) => String.eqb i s
  | _ => false
  end.

Definition text_pk_exact (k : pyval) : option (record → bool) :=
  match k with
  | PyStr s => Some (has_text_id s)
  | PyInt z => Some (has_text_id (pretty z))
  | _ => Some (λ _, false)
  end.

Definition text_platform : Platform := {|
  py_int := ascii_int;
  pk_exact := text_pk_exact;
  model_fields := [("id", column "id"); ("name", column "name")];
  values_field := ex_values_field;
  str_errors := ex_str_errors
|}.

Definition label (id name : string) : record :=
  {| attrs := <["id" := PyStr id]> (<["name" := PyStr name]> ∅) |}.

(** Labels, one of them under the empty key. *)
Definition labels : store :=
  [label "" "blank"; label "a" "first"; label "b" "second"].

(** A datetime and a decimal to encode. *)
Definition teatime : datetime :=
  {| year := 2012; month := 2; day := 29; hour := 16; minute := 30; second := 0;
     microsecond := 250000; utcoffset := Some (-330) |}.

Definition tenth : decimal := DecFinite false 1 (-1).

End Example.
Import Example.

(** * Properties *)

(** ** Correct rounding of [float_of_decimal] *)

Lemma round_half_even_half (n d : Z) :
  0 < d → 2 * Z.abs (n - round_half_even n d * d) <= d.
Proof.
  intros Hd. unfold round_half_even.
  pose proof (Z.div_mod n d ltac:(lia)) as Hdiv.
  pose proof (Z.mod_pos_bound n d Hd) as Hmod.
  set (q := n / d) in *. set (r := n mod d) in *.
  destruct (Z.ltb_spec (2 * r) d); [nia|].
  destruct (Z.ltb_spec d (2 * r)); [nia|].
  destruct (Z.even q); nia.
Qed.

(** A half is rounded to the even neighbour. *)
Lemma round_half_even_tie (n d : Z) :
  0 < d → 2 * Z.abs (n - round_half_even n d * d) = d →
  Z.even (round_half_even n d) = true.
Proof.
  intros Hd. unfold round_half_even.
  pose proof (Z.div_mod n d ltac:(lia)) as Hdiv.
  pose proof (Z.mod_pos_bound n d Hd) as Hmod.
  set (q := n / d) in *. set (r := n mod d) in *.
  destruct (Z.ltb_spec (2 * r) d); [nia|].
  destruct (Z.ltb_spec d (2 * r)); [nia|].
  destruct (Z.even q) eqn:Heven; [done|]. intros _.
  replace (q + 1) with (Z.succ q) by lia.
  by rewrite Z.even_succ, <- Z.negb_even, Heven.
Qed.

Lemma round_half_even_closest (n d j : Z) :
  0 < d →
  Z.abs (n - round_half_even n d * d) <= Z.abs (n - j * d).
Proof.
  intros Hd. pose proof (round_half_even_half n d Hd) as Hhalf.
  set (m := round_half_even n d) in *.
  destruct (Z.eq_dec j m) as [->|Hne]; [lia|].
  assert (d <= Z.abs ((m - j) * d)) by nia.
  replace (n - j * d) with ((n - m * d) + (m - j) * d) by ring.
  lia.
Qed.

Lemma round_half_even_nonneg (n d : Z) :
  0 <= n → 0 < d → 0 <= round_half_even n d.
Proof.
  intros Hn Hd. unfold round_half_even.
  pose proof (Z.div_pos n d Hn Hd).
  repeat match goal with |- context [if ?b then _ else _] => destruct b end; lia.
Qed.

Lemma binary64_exponent_bounds (N d : Z) :
  0 < N → 0 < d →
  let k := binary64_exponent N d in
  0 <= k
  ∧ N < 2 ^ 53 * (d * 2 ^ k)
  ∧ (0 < k → 2 ^ 52 * (d * 2 ^ k) <= N).
Proof.
  intros HN Hd. unfold binary64_exponent.
  pose proof (Z.log2_spec N HN) as [HNlo HNhi].
  pose proof (Z.log2_spec d Hd) as [Hdlo Hdhi].
  pose proof (Z.log2_nonneg N) as Ha. pose proof (Z.log2_nonneg d) as Hb.
  set (a := Z.log2 N) in *. set (b := Z.log2 d) in *.
  set (k1 := Z.max 0 (a - b - 53)).
  assert (0 <= k1) as Hk1 by lia.
  assert (0 < 2 ^ k1) as Hp by (apply Z.pow_pos_nonneg; lia).
  assert (N < 2 ^ 54 * (d * 2 ^ k1)) as Hupper.
  { destruct (Z.le_gt_cases 0 (a - b - 53)) as [Hge|Hlt].
    - replace k1 with (a - b - 53) by lia.
      assert (2 ^ Z.succ a = 2 ^ 54 * (2 ^ b * 2 ^ (a - b - 53))) as Heq.
      { rewrite <- !Z.pow_add_r by lia. f_equal. lia. }
      assert (0 < 2 ^ (a - b - 53)) by (apply Z.pow_pos_nonneg; lia).
      nia.
    - replace k1 with 0 by lia.
      assert (2 ^ Z.succ a <= 2 ^ (b + 53)) by (apply Z.pow_le_mono_r; lia).
      rewrite Z.pow_add_r in * by lia. nia. }
  assert (0 < k1 → 2 ^ 52 * (d * 2 ^ k1) <= N) as Hlower.
  { intros Hpos. replace k1 with (a - b - 53) by lia.
    assert (2 ^ a = 2 ^ 52 * (2 ^ Z.succ b * 2 ^ (a - b - 53))) as Heq.
    { rewrite <- !Z.pow_add_r by lia. f_equal. lia. }
    assert (0 < 2 ^ (a - b - 53)) by (apply Z.pow_pos_nonneg; lia).
    nia. }
  destruct (Z.leb_spec (2 ^ 53 * (d * 2 ^ k1)) N) as [Hfix|Hfix].
  - rewrite Z.pow_add_r by lia. change (2 ^ 1) with 2.
    change (2 ^ 54) with (2 * 2 ^ 53) in Hupper.
    change (2 ^ 53) with (2 * 2 ^ 52) in Hfix.
    repeat split; try lia; nia.
  - repeat split; try lia.
Qed.

(** The number of binary digits of a significand. *)
Lemma digits2_pos_bounds (p : positive) :
  2 ^ (Z.pos (digits2_pos p) - 1) <= Z.pos p < 2 ^ Z.pos (digits2_pos p).
Proof.
  induction p as [p IH|p IH|]; cbn [digits2_pos]; [| |done].
  - rewrite Pos2Z.inj_succ.
    set (size := Z.pos (digits2_pos p)) in *.
    replace (Z.succ size - 1) with (Z.succ (size - 1)) by lia.
    rewrite !Z.pow_succ_r by lia. lia.
  - rewrite Pos2Z.inj_succ.
    set (size := Z.pos (digits2_pos p)) in *.
    replace (Z.succ size - 1) with (Z.succ (size - 1)) by lia.
    rewrite !Z.pow_succ_r by lia. lia.
Qed.

(** A finite binary64 value is [m * 2^k] units with [m < 2^53] and
    [0 <= k <= 2045]. *)
Lemma binary64_units (g : float) :
  binary64 g = true → is_finite g = true →
  ∃ m k, 0 <= m < 2 ^ 53 ∧ 0 <= k <= 2045 ∧ Z.abs (float_units g) = m * 2 ^ k.
Proof.
  destruct g as [s|s| |s m e]; try done.
  - intros _ _. exists 0, 0. simpl. lia.
  - intros Hvalid _. unfold binary64, valid_binary, bounded, canonical_mantissa in Hvalid.
    apply andb_true_iff in Hvalid as [Hcanon Hmax].
    apply Z.eqb_eq in Hcanon. apply Z.leb_le in Hmax.
    unfold fexp, emin in Hcanon.
    pose proof (digits2_pos_bounds m) as [_ Hhi].
    exists (Z.pos m), (e + 1074). split; [split; [lia|]|split; [lia|]].
    + eapply Z.lt_le_trans; [exact Hhi|]. apply Z.pow_le_mono_r; lia.
    + unfold float_units.
      assert (0 < 2 ^ (e + 1074)) by (apply Z.pow_pos_nonneg; lia).
      destruct s; nia.
Qed.

(** A significand in range with the exponent of its binade is a binary64
    value. *)
Lemma binary64_finite (s : bool) (m k : Z) :
  0 < m < 2 ^ 53 → 0 <= k <= 2045 → (0 < k → 2 ^ 52 <= m) →
  binary64 (S754_finite s (Z.to_pos m) (k - 1074)) = true.
Proof.
  intros Hm Hk Hnormal.
  unfold binary64, valid_binary, bounded, canonical_mantissa, fexp, emin.
  apply andb_true_iff. split; [|apply Z.leb_le; lia]. apply Z.eqb_eq.
  pose proof (digits2_pos_bounds (Z.to_pos m)) as [Hlo Hhi].
  rewrite Z2Pos.id in Hlo, Hhi by lia.
  set (size := Z.pos (digits2_pos (Z.to_pos m))) in *.
  assert (size <= 53) as Hsize.
  { destruct (Z.le_gt_cases size 53) as [?|Hgt]; [done|].
    assert (2 ^ 53 <= 2 ^ (size - 1)) by (apply Z.pow_le_mono_r; lia). lia. }
  destruct (Z.eq_dec k 0) as [->|Hpos]; [lia|].
  assert (53 <= size); [|lia].
  destruct (Z.le_gt_cases 53 size) as [?|Hlt]; [done|].
  assert (2 ^ size <= 2 ^ 52) by (apply Z.pow_le_mono_r; lia).
  specialize (Hnormal ltac:(lia)). lia.
Qed.

(** Among the finite binary64 values none is nearer to [N / d] than the
    rounded significand on the grid of its binade, and one that is as near
    makes it a half. *)
Lemma grid_closest (N d k G m k' : Z) :
  0 < N → 0 < d → 0 <= k →
  (0 < k → 2 ^ 52 * (d * 2 ^ k) <= N) →
  0 <= m < 2 ^ 53 → 0 <= k' <= 2045 → Z.abs G = m * 2 ^ k' →
  let M := round_half_even N (d * 2 ^ k) in
  Z.abs (N - M * 2 ^ k * d) <= Z.abs (N - G * d)
  ∧ (G ≠ M * 2 ^ k → Z.abs (N - M * 2 ^ k * d) = Z.abs (N - G * d) →
     2 * Z.abs (N - M * (d * 2 ^ k)) = d * 2 ^ k).
Proof.
  intros HN Hd Hk Hlow Hm Hk' HG.
  assert (0 < 2 ^ k) as Hp by (apply Z.pow_pos_nonneg; lia).
  assert (0 < 2 ^ k') as Hp' by (apply Z.pow_pos_nonneg; lia).
  assert (0 < d * 2 ^ k) as HD by nia.
  pose proof (round_half_even_closest N (d * 2 ^ k)) as Hclosest.
  pose proof (round_half_even_half N (d * 2 ^ k) HD) as Hhalf.
  pose proof (round_half_even_nonneg N (d * 2 ^ k) ltac:(lia) HD) as Hnonneg.
  intros M. fold M in Hclosest, Hhalf, Hnonneg.
  replace (M * 2 ^ k * d) with (M * (d * 2 ^ k)) by ring.
  set (D := d * 2 ^ k) in *.
  destruct (Z.le_gt_cases G 0) as [Hneg|Hpos].
  - specialize (Hclosest 0 HD). split; [nia|].
    intros Hne Heq.
    assert (Z.abs (N - G * d) = N - G * d) as Habs by nia.
    rewrite Habs in Heq.
    destruct (Z.eq_dec M 0) as [HM|HM].
    + rewrite HM in Heq, Hne. nia.
    + assert (D <= M * D) by nia. nia.
  - replace (Z.abs G) with G in HG by lia. subst G.
    destruct (Z.le_gt_cases k k') as [Hle|Hgt].
    + assert (m * 2 ^ k' * d = m * 2 ^ (k' - k) * D) as HGD.
      { unfold D. replace (2 ^ k') with (2 ^ (k' - k) * 2 ^ k); [ring|].
        rewrite <- Z.pow_add_r by lia. f_equal. lia. }
      specialize (Hclosest (m * 2 ^ (k' - k)) HD).
      rewrite HGD. split; [done|].
      intros Hne Heq.
      assert (m * 2 ^ (k' - k) ≠ M) as Hj.
      { intros Hj. apply Hne. rewrite <- Hj.
        replace (2 ^ k') with (2 ^ (k' - k) * 2 ^ k); [ring|].
        rewrite <- Z.pow_add_r by lia. f_equal. lia. }
      set (j := m * 2 ^ (k' - k)) in *.
      assert (D <= Z.abs ((M - j) * D)) by nia.
      replace ((M - j) * D) with ((N - j * D) - (N - M * D)) in * by ring.
      lia.
    + specialize (Hclosest (2 ^ 52) HD).
      assert (2 ^ k = 2 ^ (k - k' - 1) * (2 * 2 ^ k')) as Hsplit.
      { change 2 with (2 ^ 1) at 3. rewrite <- !Z.pow_add_r by lia. f_equal. lia. }
      assert (0 < 2 ^ (k - k' - 1)) by (apply Z.pow_pos_nonneg; lia).
      assert (2 * 2 ^ k' <= 2 ^ k) by nia.
      assert (2 * (m * 2 ^ k' * d) <= (2 ^ 53 - 1) * D) as Hbelow.
      { unfold D. assert (m <= 2 ^ 53 - 1) by lia. nia. }
      specialize (Hlow ltac:(lia)). fold D in Hlow.
      change (2 ^ 53) with (2 * 2 ^ 52) in Hbelow.
      split; lia.
Qed.

(** [float_of_ratio] rounds correctly: the outcome is a binary64 value of
    the given sign; it is an infinity exactly from [2^1024 - 2^970] on;
    below that no finite binary64 value is nearer to [n / d], and where
    another is as near the significand is even. *)
Lemma float_of_ratio_nearest (s : bool) (n d : Z) :
  0 < n → 0 < d →
  let N := n * 2 ^ 1074 in
  match float_of_ratio s n d with
  | S754_nan => False
  | S754_infinity s' => s' = s ∧ (2 ^ 54 - 1) * 2 ^ 2044 * d <= N
  | S754_zero s' =>
      s' = s ∧ N < (2 ^ 54 - 1) * 2 ^ 2044 * d
      ∧ ∀ G m k, 0 <= m < 2 ^ 53 → 0 <= k <= 2045 → Z.abs G = m * 2 ^ k →
                 Z.abs (N - 0 * d) <= Z.abs (N - G * d)
  | S754_finite s' m e =>
      s' = s ∧ binary64 (S754_finite s' m e) = true
      ∧ N < (2 ^ 54 - 1) * 2 ^ 2044 * d
      ∧ ∀ G m' k, 0 <= m' < 2 ^ 53 → 0 <= k <= 2045 → Z.abs G = m' * 2 ^ k →
          let U := Z.pos m * 2 ^ (e + 1074) in
          Z.abs (N - U * d) <= Z.abs (N - G * d)
          ∧ (G ≠ U → Z.abs (N - U * d) = Z.abs (N - G * d) →
             Z.even (Z.pos m) = true)
  end.
Proof.
  intros Hn Hd N. unfold float_of_ratio.
  assert (0 < N) as HN by (unfold N; lia).
  fold N.
  destruct (binary64_exponent_bounds N d HN Hd) as (Hk & Hup & Hlow).
  set (k := binary64_exponent N d) in *.
  assert (0 < 2 ^ k) as Hp by (apply Z.pow_pos_nonneg; lia).
  assert (0 < d * 2 ^ k) as HD by nia.
  pose proof (round_half_even_half N (d * 2 ^ k) HD) as Hhalf.
  pose proof (round_half_even_tie N (d * 2 ^ k) HD) as Htie.
  pose proof (round_half_even_nonneg N (d * 2 ^ k) ltac:(lia) HD) as Hnonneg.
  pose proof (λ G m' k', grid_closest N d k G m' k' HN Hd Hk Hlow) as Hgrid.
  cbv zeta in Hgrid.
  set (M := round_half_even N (d * 2 ^ k)) in *.
  assert (M <= 2 ^ 53) as HM by nia.
  assert (0 < k → 2 ^ 52 <= M) as HMlow.
  { intros Hpos. specialize (Hlow Hpos). nia. }
  destruct (Z.eqb_spec M (2 ^ 53)) as [Htop|Hnot].
  - change (2 ^ 52 =? 0) with false. cbv iota.
    destruct (Z.ltb_spec 2045 (k + 1)) as [Hover|Hfit].
    + split; [done|].
      assert (2 ^ 2045 <= 2 ^ k) by (apply Z.pow_le_mono_r; lia).
      change (2 ^ 2045) with (2 * 2 ^ 2044) in *.
      rewrite Htop in Hhalf. change (2 ^ 54) with (2 * 2 ^ 53). nia.
    + assert (Z.pos (Z.to_pos (2 ^ 52)) * 2 ^ (k + 1 - 1074 + 1074) = M * 2 ^ k)
        as HU.
      { rewrite Htop. replace (k + 1 - 1074 + 1074) with (k + 1) by lia.
        rewrite Z.pow_add_r by lia. change (Z.pos (Z.to_pos (2 ^ 52))) with (2 ^ 52).
        change (2 ^ 53) with (2 ^ 52 * 2). change (2 ^ 1) with 2. ring. }
      split; [done|]. split; [by apply binary64_finite; [| lia |]|].
      split.
      { assert (2 ^ k <= 2 ^ 2044) by (apply Z.pow_le_mono_r; lia).
        rewrite Htop in Hhalf. change (2 ^ 54) with (2 * 2 ^ 53). nia. }
      intros G m' k' Hm' Hk' HG. rewrite HU.
      destruct (Hgrid G m' k' Hm' Hk' HG) as [Hnear _]. done.
  - destruct (Z.eqb_spec M 0) as [Hzero|Hnz].
    + split; [done|].
      assert (k = 0) as Hk0 by (destruct (Z.eq_dec k 0); [done | lia]).
      split.
      { rewrite Hzero, Hk0 in Hhalf. simpl in Hhalf.
        change (2 ^ 54) with (2 * 2 ^ 53). nia. }
      intros G m' k' Hm' Hk' HG.
      destruct (Hgrid G m' k' Hm' Hk' HG) as [Hnear _].
      rewrite Hzero in Hnear. by replace (0 * 2 ^ k * d) with (0 * d) in Hnear by ring.
    + destruct (Z.ltb_spec 2045 k) as [Hover|Hfit].
      * split; [done|].
        assert (2 ^ 2046 <= 2 ^ k) by (apply Z.pow_le_mono_r; lia).
        specialize (Hlow ltac:(lia)).
        change (2 ^ 2046) with (4 * 2 ^ 2044) in *.
        change (2 ^ 54) with (4 * 2 ^ 52). nia.
      * split; [done|]. split; [apply binary64_finite; lia|].
        rewrite Z2Pos.id by lia. replace (k - 1074 + 1074) with k by lia.
        assert (∀ G m' k', 0 <= m' < 2 ^ 53 → 0 <= k' <= 2045 →
                  Z.abs G = m' * 2 ^ k' → G ≠ M * 2 ^ k →
                  Z.abs (N - M * 2 ^ k * d) = Z.abs (N - G * d) →
                  Z.even M = true) as Heven.
        { intros G m' k' Hm' Hk' HG Hne Heq. apply Htie.
          destruct (Hgrid G m' k' Hm' Hk' HG) as [_ Hhalf']. by apply Hhalf'. }
        split.
        { assert (2 ^ k <= 2 ^ 2045) as Hpk by (apply Z.pow_le_mono_r; lia).
          change (2 ^ 2045) with (2 * 2 ^ 2044) in Hpk.
          destruct (Z.eq_dec (2 * Z.abs (N - M * (d * 2 ^ k))) (d * 2 ^ k))
            as [Hhalf'|Hless].
          - apply Htie in Hhalf'.
            assert (M ≠ 2 ^ 53 - 1) as Hodd by (intros ->; done).
            assert (M <= 2 ^ 53 - 2) by lia.
            change (2 ^ 54) with (2 * 2 ^ 53). nia.
          - change (2 ^ 54) with (2 * 2 ^ 53). nia. }
        intros G m' k' Hm' Hk' HG.
        destruct (Hgrid G m' k' Hm' Hk' HG) as [Hnear _].
        split; [done|]. by apply (Heven G m' k').
Qed.

Lemma decimal_ratio_pos (c : positive) (e : Z) :
  0 < (decimal_ratio c e).1 ∧ 0 < (decimal_ratio c e).2.
Proof.
  unfold decimal_ratio. destruct (Z.leb_spec 0 e); simpl.
  - assert (0 < 10 ^ e) by (apply Z.pow_pos_nonneg; lia). lia.
  - assert (0 < 10 ^ (- e)) by (apply Z.pow_pos_nonneg; lia). lia.
Qed.

Lemma float_of_ratio_rounds (s : bool) (n d : Z) :
  0 < n → 0 < d → rounds_to s n d (float_of_ratio s n d).
Proof.
  intros Hn Hd. pose proof (float_of_ratio_nearest s n d Hn Hd) as Hnear.
  cbv zeta in Hnear. unfold rounds_to.
  assert ((2 ^ 54 - 1) * 2 ^ 2044 = (2 ^ 1024 - 2 ^ 970) * 2 ^ 1074) as Hlimit
    by (vm_compute; reflexivity).
  assert (0 < 2 ^ 1074) as Hunit by (vm_compute; reflexivity).
  set (unit := 2 ^ 1074) in *. set (limit := 2 ^ 1024 - 2 ^ 970) in *.
  rewrite Hlimit in Hnear. clear Hlimit.
  assert (∀ g, binary64 g = true → is_finite g = true →
            ∃ m k, 0 <= m < 2 ^ 53 ∧ 0 <= k <= 2045
                   ∧ Z.abs ((if s then -1 else 1) * float_units g) = m * 2 ^ k)
    as Hgrid.
  { intros g Hg Hfin. destruct (binary64_units g Hg Hfin) as (m & k & ? & ? & Habs).
    exists m, k. split; [done|]. split; [done|]. rewrite <- Habs. destruct s; lia. }
  destruct (float_of_ratio s n d) as [s'|s'| |s' m e]; [| | done |].
  - destruct Hnear as (-> & Hbelow & Hnear). split; [done|]. split; [done|].
    simpl. split; [nia|]. intros g Hg Hfin.
    destruct (Hgrid g Hg Hfin) as (m & k & Hm & Hk & Habs).
    specialize (Hnear _ m k Hm Hk Habs). split; [destruct s; lia | done].
  - destruct Hnear as (-> & Hover). split; [done|]. split; [done|]. simpl. nia.
  - destruct Hnear as (-> & Hvalid & Hbelow & Hnear).
    split; [done|]. split; [done|]. simpl is_finite. cbv iota.
    split; [nia|]. intros g Hg Hfin.
    destruct (Hgrid g Hg Hfin) as (m' & k & Hm & Hk & Habs).
    destruct (Hnear _ m' k Hm Hk Habs) as [Hle Htie]. cbv zeta in Hle, Htie.
    cbv zeta. simpl even_significand.
    change (float_units (S754_finite s m e))
      with ((if s then -1 else 1) * (Z.pos m * 2 ^ (e + 1074))).
    set (U := Z.pos m * 2 ^ (e + 1074)) in *. set (G := float_units g) in *.
    split; [destruct s; lia|].
    intros Hne Heq. apply Htie; destruct s; lia.
Qed.

(** ** [isoformat] is read back by the ISO 8601 reader *)

Lemma digit_of_char (d : Z) : 0 <= d < 10 → digit_of (digit_char d) = Some d.
Proof.
  intros Hd. unfold digit_of, digit_char.
  rewrite N_ascii_embedding by lia.
  rewrite Z2N.id by lia.
  destruct (Z.leb_spec 48 (48 + d)), (Z.leb_spec (48 + d) 57); simpl; try lia.
  f_equal. lia.
Qed.

Lemma read_digits_more (w : nat) (acc : Z) (cs : list ascii) v c r :
  read_digits w acc cs = Some (v, c :: r) →
  read_digits (S w) acc cs = (d ← digit_of c; Some (10 * v + d, r)).
Proof.
  revert acc cs. induction w as [|w IH]; intros acc cs.
  - simpl. intros [= -> ->]. by destruct (digit_of c).
  - cbn [read_digits]. destruct cs as [|c' cs]; [done|].
    destruct (digit_of c') as [d'|]; simpl; [|done].
    intros Hr. by rewrite <- (IH _ _ Hr).
Qed.

Lemma read_digits_fixed (w : nat) (z : Z) (rest : list ascii) :
  0 <= z < 10 ^ Z.of_nat w →
  read_digits w 0 (fixed w z ++ rest) = Some (z, rest).
Proof.
  revert z rest. induction w as [|w IH]; intros z rest Hz.
  - simpl in *. f_equal. f_equal. lia.
  - cbn [fixed]. rewrite <- app_assoc. cbn [app].
    rewrite Nat2Z.inj_succ, Z.pow_succ_r in Hz by lia.
    rewrite (read_digits_more w 0 _ (z / 10) (digit_char (z mod 10)) rest).
    + rewrite digit_of_char by (apply Z.mod_pos_bound; lia). simpl.
      f_equal. f_equal. pose proof (Z.div_mod z 10). lia.
    + apply IH. split; [apply Z.div_pos; lia|]. apply Z.div_lt_upper_bound; lia.
Qed.

Lemma expect_head (c : ascii) (cs : list ascii) : expect c (c :: cs) = Some cs.
Proof. unfold expect. by rewrite Ascii.eqb_refl. Qed.

Lemma read_offset_fixed (off : Z) :
  0 <= off <= 1439 →
  read_offset (fixed 2 (off / 60) ++ ":"%char :: fixed 2 (off mod 60)) = Some off.
Proof.
  intros Hoff. unfold read_offset.
  rewrite read_digits_fixed; cbn [mbind option_bind].
  - rewrite expect_head. cbn [mbind option_bind].
    rewrite <- (app_nil_r (fixed 2 (off mod 60))).
    rewrite read_digits_fixed; cbn [mbind option_bind].
    + f_equal. pose proof (Z.div_mod off 60). lia.
    + change (10 ^ Z.of_nat 2) with 100. pose proof (Z.mod_pos_bound off 60). lia.
  - change (10 ^ Z.of_nat 2) with 100. split; [apply Z.div_pos; lia|].
    apply Z.div_lt_upper_bound; lia.
Qed.

Lemma read_zone_chars (offset : option Z) :
  (∀ off, offset = Some off → -1439 <= off <= 1439) →
  read_zone (zone_chars offset) = Some offset.
Proof.
  intros Hoff. destruct offset as [off|]; [|done].
  specialize (Hoff off eq_refl). unfold zone_chars.
  destruct (Z.ltb_spec off 0); cbn [read_zone];
    rewrite read_offset_fixed by lia; simpl; do 2 f_equal; lia.
Qed.

Lemma read_fraction_chars (us : Z) (offset : option Z) :
  0 <= us <= 999999 →
  read_fraction ((if us =? 0 then [] else "."%char :: fixed 6 us) ++ zone_chars offset)
  = Some (us, zone_chars offset).
Proof.
  intros Hus. destruct (Z.eqb_spec us 0) as [->|Hne]; cbn [app].
  - destruct offset as [off|]; [|done]. unfold zone_chars.
    by destruct (off <? 0).
  - cbn [read_fraction]. apply read_digits_fixed.
    change (10 ^ Z.of_nat 6) with 1000000. lia.
Qed.

Lemma between_spec (lo x hi : Z) : between lo x hi = true ↔ lo <= x <= hi.
Proof. unfold between. rewrite andb_true_iff, !Z.leb_le. done. Qed.

Lemma days_in_month_le (y m : Z) : days_in_month y m <= 31.
Proof.
  unfold days_in_month.
  destruct m as [|[[[[]|[]|]|[[]|[]|]|]|[[[]|[]|]|[[]|[]|]|]|]|]; try lia.
  destruct (leap y); lia.
Qed.

(** The text [isoformat] gives for a [datetime] is ISO 8601, and reads
    back as the same [datetime]. *)
Lemma isoformat_round_trip (t : datetime) :
  valid_datetime t = true → parse_iso8601 (isoformat t) = Some t.
Proof.
  intros Hv. pose proof Hv as Hv'. unfold valid_datetime in Hv'.
  rewrite !andb_true_iff, !between_spec in Hv'.
  destruct Hv' as [[[[[[[Hy Hmo] Hd] Hh] Hmi] Hs] Hus] Hoff].
  pose proof (days_in_month_le (year t) (month t)) as Hdim.
  unfold parse_iso8601, isoformat.
  rewrite list_ascii_of_string_of_list_ascii. unfold iso_chars.
  rewrite read_digits_fixed by (change (10 ^ Z.of_nat 4) with 10000; lia).
  cbn [mbind option_bind]. rewrite expect_head. cbn [mbind option_bind].
  do 5 (rewrite read_digits_fixed by (change (10 ^ Z.of_nat 2) with 100; lia);
        cbn [mbind option_bind]; rewrite ?expect_head; cbn [mbind option_bind]).
  rewrite read_fraction_chars by lia. cbn [mbind option_bind].
  rewrite read_zone_chars.
  - cbn [mbind option_bind]. destruct t; simpl in *. by rewrite Hv.
  - intros off Hoff'. rewrite Hoff' in Hoff. by apply between_spec.
Qed.

(** ** The result monad *)

Lemma bind_Ok {A B} (f : A → result B) (r : result A) (b : B) :
  r ≫= f = Ok b → ∃ a, r = Ok a ∧ f a = Ok b.
Proof. destruct r as [a|e]; [eauto | discriminate]. Qed.

Lemma bind_Raise {A B} (f : A → result B) (r : result A) (e : exn) :
  r ≫= f = Raise e → r = Raise e ∨ ∃ a, r = Ok a ∧ f a = Raise e.
Proof. destruct r as [a|e']; [eauto | intros [= ->]; auto]. Qed.

Lemma mapM_Ok_length {A B} (f : A → result B) (l : list A) (k : list B) :
  mapM f l = Ok k → length k = length l.
Proof.
  revert k; induction l as [|x l IH]; intros k; simpl.
  - by intros [= <-].
  - destruct (f x) as [y|]; [|discriminate]; simpl.
    destruct (mapM f l) as [k'|]; [|discriminate]; simpl.
    intros [= <-]; simpl. f_equal. by apply IH.
Qed.

Lemma mapM_Raise {A B} (f : A → result B) (l : list A) (e : exn) :
  mapM f l = Raise e → ∃ x, x ∈ l ∧ f x = Raise e.
Proof.
  induction l as [|x l IH]; simpl; [discriminate|].
  destruct (f x) as [y|e'] eqn:Hx; simpl.
  - destruct (mapM f l) as [k'|e'']; simpl; [discriminate|].
    intros [= ->]. destruct IH as (x' & ? & ?); [done|].
    exists x'. split; [by right | done].
  - intros [= ->]. exists x. split; [by left | done].
Qed.

(** ** The encoder *)

(** [default] answers with a JSON-native scalar, so the second walk of
    [DjangboneJSONEncoder] is never handed a value it cannot write. *)
Lemma default_scalar (o x : pyval) :
  default o = Ok x → (∃ s, x = PyStr s) ∨ (∃ f, x = PyFloat f) ∨ x = PyNone.
Proof.
  destruct o as [| | | | | | | t|q|]; simpl; try (intros [= <-]; eauto).
  destruct (float_of_decimal q) as [f|]; simpl; [|done]. intros [= <-]. eauto.
Qed.

(** What [default] raises is the [ValueError] of a signaling NaN. *)
Lemma default_Raise (o : pyval) (e : exn) :
  default o = Raise e → e = ValueError ∧ ∃ s, o = PyDecimal (DecNaN s true).
Proof.
  destruct o as [| | | | | | | t|q|]; simpl; try done.
  destruct q as [s [|c] x|s|s [|]]; simpl; try done.
  - by destruct (decimal_ratio c x).
  - intros [= <-]. eauto.
Qed.

(** C8, as the code has it.  The fallback of the encoder: a [datetime]
    becomes the text [isoformat] gives for it, which is ISO 8601 and reads
    back as the same [datetime]; a finite [Decimal] becomes the binary64
    value nearest to it, of even significand where two are as near,
    an infinity from [2^1024 - 2^970] on and a zero of its sign for a zero;
    an infinite [Decimal] becomes the infinity of its sign and a quiet NaN
    becomes NaN; a signaling NaN makes [default], and with it the encoder,
    raise [ValueError]; every other value becomes [None], which is written
    as [null], and raises nothing. *)
Theorem default_rules (o : pyval) :
  match o with
  | PyDatetime t =>
      default o = Ok (PyStr (isoformat t))
      ∧ DjangboneJSONEncoder o = Some (JString (isoformat t))
      ∧ (valid_datetime t = true → parse_iso8601 (isoformat t) = Some t)
  | PyDecimal (DecFinite s N0 e) =>
      default o = Ok (PyFloat (S754_zero s))
      ∧ DjangboneJSONEncoder o = Some (JFloat (S754_zero s))
  | PyDecimal (DecFinite s (Npos c) e) =>
      ∃ f, default o = Ok (PyFloat f)
           ∧ DjangboneJSONEncoder o = Some (JFloat f)
           ∧ rounds_to s (decimal_ratio c e).1 (decimal_ratio c e).2 f
  | PyDecimal (DecInfinity s) =>
      default o = Ok (PyFloat (S754_infinity s))
      ∧ DjangboneJSONEncoder o = Some (JFloat (S754_infinity s))
  | PyDecimal (DecNaN _ false) =>
      default o = Ok (PyFloat S754_nan)
      ∧ DjangboneJSONEncoder o = Some (JFloat S754_nan)
  | PyDecimal (DecNaN _ true) =>
      default o = Raise ValueError ∧ DjangboneJSONEncoder o = None
  | PyObject _ => default o = Ok PyNone ∧ DjangboneJSONEncoder o = Some JNull
  | _ => default o = Ok PyNone
  end.
Proof.
  destruct o as [| | | | | | | t|q|]; try done.
  - split; [done|]. split; [done|]. apply isoformat_round_trip.
  - destruct q as [s [|c] e|s|s [|]]; try done.
    pose proof (decimal_ratio_pos c e) as [Hn Hd].
    exists (float_of_ratio s (decimal_ratio c e).1 (decimal_ratio c e).2).
    unfold DjangboneJSONEncoder. simpl.
    destruct (decimal_ratio c e) as [n d]. simpl in *.
    split; [done|]. split; [done|]. by apply float_of_ratio_rounds.
Qed.

Lemma default_rules_witness :
  parse_iso8601 "2012-02-29T16:30:00.250000-05:30" = Some teatime
  ∧ ∃ f, default (PyDecimal tenth) = Ok (PyFloat f) ∧ rounds_to false 1 10 f.
Proof.
  split.
  - apply (default_rules (PyDatetime teatime)). reflexivity.
  - destruct (default_rules (PyDecimal tenth)) as (f & Hf & _ & Hr).
    exists f. split; [exact Hf | exact Hr].
Defined.

(** C8 as it is stated fails for a [Decimal] that is a signaling NaN: it
    is encoded as no float at all, [float] raises [ValueError] for it and
    the exception leaves [default] and the encoder. *)
Lemma signaling_nan_raises :
  default (PyDecimal (DecNaN false true)) = Raise ValueError
  ∧ DjangboneJSONEncoder (PyDecimal (DecNaN false true)) = None
  ∧ DjangboneJSONEncoder (PyList [PyDict {["price" := PyDecimal (DecNaN false true)]}])
    = None.
Proof. vm_compute. repeat split. Qed.

(** ** What the view can raise *)

Lemma getslice_Raise (q : pyseq) (start stop : option Z) (e : exn) :
  getslice q start stop = Raise e → e = AssertionError.
Proof.
  destruct q as [rows [cached|]|rows]; simpl;
    repeat case_match; congruence.
Qed.

Lemma values_Raise `{Platform} (q : pyseq) (fields : list string) (e : exn) :
  values q fields = Raise e → has_values q = true → e = FieldError.
Proof.
  destruct q as [rows cache|rows]; simpl; [|done].
  intros [Hr|(? & _ & ?)]%bind_Raise _; [|done].
  destruct fields as [|name fields]; [done|].
  apply mapM_Raise in Hr as (name' & _ & Hname).
  destruct (values_field name'); simpl in Hname; congruence.
Qed.

Lemma plain_values_Raise `{Platform} v (obj : record) (e : exn) :
  plain_values v obj = Raise e → e = AttributeError.
Proof.
  unfold plain_values. intros [Hm|(? & _ & ?)]%bind_Raise; [|discriminate].
  apply mapM_Raise in Hm as (name & _ & Hname).
  unfold getattr in Hname. destruct (attrs obj !! name); simpl in *; congruence.
Qed.

Lemma get_values_Raise `{Platform} v (qs : pyseq) (e : exn) :
  get_values v qs = Raise e → e = AttributeError ∨ e = FieldError.
Proof.
  unfold get_values. destruct (values_override v); [discriminate|].
  destruct (negb (size (custom_values v) =? 0)%nat) eqn:Hcustom; simpl.
  - intros (obj & _ & Hobj)%mapM_Raise. left.
    unfold row_values in Hobj.
    apply bind_Raise in Hobj as [?|(? & _ & ?)]; [|discriminate].
    by eapply plain_values_Raise.
  - destruct (has_values qs) eqn:Hvalues; simpl.
    + intros Hr. right. by eapply values_Raise.
    + intros (obj & _ & Hobj)%mapM_Raise. left.
      unfold row_values in Hobj.
      apply bind_Raise in Hobj as [?|(? & _ & ?)]; [|discriminate].
      by eapply plain_values_Raise.
Qed.

(** Closes a goal that puts an exception in a list it is in. *)
Ltac listed := rewrite !elem_of_cons; auto 10.

Lemma encode_Raise v (data : pyval) (e : exn) :
  encode v data = Raise e → e = ValueError.
Proof. unfold encode. destruct (json_encoder v data); simpl; congruence. Qed.

Lemma serialize_qs_Raise `{Platform} v request kwargs qs single (e : exn) :
  serialize_qs v request kwargs qs single = Raise e →
  e ∈ [AssertionError; AttributeError; FieldError; IndexError; ValueError].
Proof.
  unfold serialize_qs. case_match.
  - intros [Hs|(first & _ & Hr)]%bind_Raise.
    { apply getslice_Raise in Hs as ->. listed. }
    apply bind_Raise in Hr as [Hv|(vals & _ & Hr)].
    { apply get_values_Raise in Hv as [-> | ->]; listed. }
    apply bind_Raise in Hr as [Hi|(data & _ & He)].
    + unfold list_getitem in Hi. destruct (vals !! 0%nat); simpl in Hi; [discriminate|].
      injection Hi as <-. listed.
    + apply encode_Raise in He as ->. listed.
  - intros [Hs|(q & _ & Hr)]%bind_Raise.
    { unfold paginate in Hs. destruct (page_size v); [|discriminate].
      apply getslice_Raise in Hs as ->. listed. }
    apply bind_Raise in Hr as [Hv|(vals & _ & He)].
    + apply get_values_Raise in Hv as [-> | ->]; listed.
    + apply encode_Raise in He as ->. listed.
Qed.

(** A serialised answer is a 200, or an exception other than [Http404]. *)
Lemma success_status `{Platform} v request kwargs qs single :
  let r := output ← serialize_qs v request kwargs qs single;
           Ok (success_response output) in
  status_of r = 200 ∨ status_of r = 500.
Proof.
  simpl. destruct (serialize_qs v request kwargs qs single) as [out|e] eqn:Hs; simpl.
  - by left.
  - right. apply serialize_qs_Raise in Hs.
    repeat (apply elem_of_cons in Hs as [->|Hs]; [done|]).
    by apply elem_of_nil in Hs.
Qed.

Lemma run_form_status `{Platform} v request kwargs f db :
  let r := (run_form v request kwargs f db).1 in
  status_of r = 200 ∨ status_of r = 400 ∨ status_of r = 500.
Proof.
  simpl. unfold run_form. case_match.
  - destruct (save _ db) as [obj db']. simpl.
    destruct (success_status v request kwargs (PyListOf [obj]) true); auto.
  - simpl. auto.
Qed.

(** ** The guards of the four handlers *)

Lemma get_status `{Platform} v request kwargs db :
  status_of (get v request kwargs db) ≠ 405.
Proof.
  unfold get, get_single_item, get_collection.
  destruct (truthy _).
  - destruct (dict_getitem kwargs (pk v)) as [k|[]]; simpl; try done.
    destruct (filter_pk db k) as [rows|[]]; simpl; try done.
    destruct (length rows =? 1)%nat; simpl; [|done].
    destruct (success_status v request kwargs (QuerySet rows (Some rows)) false)
      as [Hs|Hs];
      simpl in Hs; rewrite Hs; done.
  - destruct (success_status v request kwargs (QuerySet db (base_cache v)) false)
      as [Hs|Hs];
      simpl in Hs; rewrite Hs; done.
Qed.

Lemma post_status `{Platform} v request kwargs db :
  status_of (post v request kwargs db).1 = 405 ↔ add_form_class v = None.
Proof.
  unfold post. destruct (add_form_class v) as [cls|]; [|done].
  split; [|done]. destruct (json_decoder v (body request)) as [d|]; [|done].
  destruct (run_form_status v request kwargs (cls d) db) as [Hs|[Hs|Hs]];
    simpl in Hs; rewrite Hs; done.
Qed.

Lemma put_status `{Platform} v request kwargs db :
  status_of (put v request kwargs db).1 = 405
  ↔ edit_form_class v = None ∨ kwargs !! pk v = None.
Proof.
  unfold put. destruct (edit_form_class v) as [cls|]; [|by split; auto].
  destruct (kwargs !! pk v) as [k|]; [|by split; auto].
  split; [|by intros [|]].
  destruct (json_decoder v (body request)) as [d|]; simpl; [|done].
  destruct (get_pk db k) as [obj|[]]; simpl; try done.
  destruct (run_form_status v request kwargs (cls d obj) db) as [Hs|[Hs|Hs]];
    simpl in Hs; rewrite Hs; done.
Qed.

Lemma delete_status `{Platform} v request kwargs db :
  status_of (delete v request kwargs db).1 = 405 ↔ kwargs !! pk v = None.
Proof.
  unfold delete. destruct (kwargs !! pk v) as [k|]; [|done].
  split; [|done].
  destruct (filter_pk db k) as [rows|[]]; simpl; try done.
  destruct (negb _); [|done].
  destruct (serialize_qs v request kwargs (QuerySet rows (Some rows)) false)
    as [out|e] eqn:Hs;
    simpl; [done|].
  apply serialize_qs_Raise in Hs.
  repeat (apply elem_of_cons in Hs as [->|Hs]; [done|]).
  by apply elem_of_nil in Hs.
Qed.

(** C6.  The client sees status 405 exactly when the method is POST and no
    add form is configured, or PUT and no edit form is configured or the
    URL has no entry for the key, or DELETE and the URL has no entry for the
    key.  In each of these cases the answer is the fixed text response,
    whatever the request body, the query string and the table are, and the
    table is left as it was. *)
Theorem rejects_405_exactly `{Platform} v (m : http_method) request kwargs db :
  (status_of (dispatch v m request kwargs db).1 = 405
   ↔ (m = POST_ ∧ add_form_class v = None)
     ∨ (m = PUT_ ∧ (edit_form_class v = None ∨ kwargs !! pk v = None))
     ∨ (m = DELETE_ ∧ kwargs !! pk v = None))
  ∧ (add_form_class v = None →
     dispatch v POST_ request kwargs db
     = (Ok (text_response "POST not supported" 405), db))
  ∧ (edit_form_class v = None ∨ kwargs !! pk v = None →
     dispatch v PUT_ request kwargs db
     = (Ok (text_response "PUT not supported" 405), db))
  ∧ (kwargs !! pk v = None →
     dispatch v DELETE_ request kwargs db
     = (Ok (text_response "DELETE is not supported for collections" 405), db)).
Proof.
  split; [|split; [|split]].
  - destruct m; simpl.
    + split; [by intros ?%get_status | intros [[? _]|[[? _]|[? _]]]; discriminate].
    + rewrite post_status.
      split; [auto | intros [[_ ?]|[[? _]|[? _]]]; done || discriminate].
    + rewrite put_status.
      split; [auto | intros [[? _]|[[_ ?]|[? _]]]; done || discriminate].
    + rewrite delete_status.
      split; [auto | intros [[? _]|[[? _]|[_ ?]]]; done || discriminate].
  - intros Hadd. simpl. unfold post. by rewrite Hadd.
  - intros Hput. simpl. unfold put.
    destruct (edit_form_class v); [|done].
    destruct Hput as [? | ->]; done.
  - intros Hdel. simpl. unfold delete. by rewrite Hdel.
Qed.

(** C9.  [get] tests the value the URL captured for the key, [put] and
    [delete] test whether the URL has an entry for it.  With an entry whose
    value is falsy (the empty string, 0 and [None] are), GET answers with the
    collection, while DELETE, and PUT on a view with an edit form, are not
    turned away with 405. *)
Theorem falsy_identifier `{Platform} v request kwargs db (x : pyval) :
  kwargs !! pk v = Some x →
  truthy x = false →
  get v request kwargs db = get_collection v request kwargs db
  ∧ status_of (delete v request kwargs db).1 ≠ 405
  ∧ (edit_form_class v ≠ None → status_of (put v request kwargs db).1 ≠ 405)
  ∧ truthy (PyStr "") = false ∧ truthy (PyInt 0) = false ∧ truthy PyNone = false.
Proof.
  intros Hk Hx. split; [|split; [|split]].
  - unfold get, dict_get. by rewrite Hk; simpl; rewrite Hx.
  - rewrite delete_status. congruence.
  - intros Hedit. rewrite put_status. intros [?|?]; congruence.
  - done.
Qed.

Lemma falsy_identifier_witness :
  let kwargs : gmap string pyval := {["id" := PyStr ""]} in
  get (widget_view None) (request "" ∅) kwargs widgets
  = get_collection (widget_view None) (request "" ∅) kwargs widgets
  ∧ status_of (delete (widget_view None) (request "" ∅) kwargs widgets).1 ≠ 405.
Proof.
  intros kwargs.
  destruct (falsy_identifier (widget_view None) (request "" ∅) kwargs widgets
              (PyStr "")) as (Hget & Hdel & _).
  - reflexivity.
  - reflexivity.
  - split; [exact Hget | exact Hdel].
Defined.

(** ** Malformed bodies and rejected forms *)

Lemma filter_pk_Raise `{Platform} (db : store) (k : pyval) (e : exn) :
  filter_pk db k = Raise e → e = ValueError.
Proof. unfold filter_pk. destruct (pk_exact k); simpl; congruence. Qed.

Lemma get_pk_missing `{Platform} (db : store) (k : pyval) :
  get_pk db k = Raise ObjectDoesNotExist ↔ filter_pk db k = Ok [].
Proof.
  unfold get_pk. destruct (filter_pk db k) as [[|obj [|obj' rows]]|e] eqn:Hf; simpl.
  - done.
  - split; discriminate.
  - split; discriminate.
  - apply filter_pk_Raise in Hf as ->. split; discriminate.
Qed.

Lemma get_pk_Raise `{Platform} (db : store) (k : pyval) (e : exn) :
  get_pk db k = Raise e →
  e = ValueError ∨ e = ObjectDoesNotExist ∨ e = MultipleObjectsReturned.
Proof.
  unfold get_pk. destruct (filter_pk db k) as [[|obj [|obj' rows]]|e'] eqn:Hf; simpl.
  - intros [= <-]. auto.
  - discriminate.
  - intros [= <-]. auto.
  - apply filter_pk_Raise in Hf as ->. intros [= <-]. auto.
Qed.

(** C10.  In [put] the body is decoded before the record is looked up.  On a
    view with an edit form and a URL with an entry for the key, a body the
    decoder rejects is answered with 400 and the text [Invalid PUT JSON]
    whatever the table holds, and the client sees 404 exactly when the body
    decodes and no row has the key. *)
Theorem put_decodes_first `{Platform} v request kwargs db cls (k : pyval) :
  edit_form_class v = Some cls →
  kwargs !! pk v = Some k →
  (json_decoder v (body request) = None →
   ∀ db', put v request kwargs db' = (Ok (text_response "Invalid PUT JSON" 400), db'))
  ∧ (status_of (put v request kwargs db).1 = 404
     ↔ (∃ d, json_decoder v (body request) = Some d) ∧ filter_pk db k = Ok []).
Proof.
  intros Hedit Hk. split.
  - intros Hbody db'. unfold put. by rewrite Hedit, Hk, Hbody.
  - unfold put. rewrite Hedit, Hk.
    destruct (json_decoder v (body request)) as [d|]; simpl.
    + destruct (get_pk db k) as [obj|e] eqn:Hget; simpl.
      * split.
        -- destruct (run_form_status v request kwargs (cls d obj) db)
             as [Hs|[Hs|Hs]]; simpl in Hs; rewrite Hs; done.
        -- intros [_ Hnone]. apply get_pk_missing in Hnone. congruence.
      * split.
        -- intros Hs. split; [by exists d|]. apply get_pk_missing.
           rewrite Hget.
           by destruct (get_pk_Raise db k e Hget) as [-> | [-> | ->]].
        -- intros [_ Hnone]. apply get_pk_missing in Hnone.
           rewrite Hget in Hnone. by injection Hnone as ->.
    + split; [done | by intros [[d ?] _]].
Qed.

Lemma put_decodes_first_witness :
  put (widget_view None) (request "{" ∅) {["id" := PyStr "9"]} widgets
  = (Ok (text_response "Invalid PUT JSON" 400), widgets)
  ∧ status_of (put (widget_view None) (request "{}" ∅)
                 {["id" := PyStr "9"]} widgets).1 = 404.
Proof.
  destruct (put_decodes_first (widget_view None) (request "{" ∅)
              {["id" := PyStr "9"]} widgets
              (λ _ _, rejecting "name" "required") (PyStr "9"))
    as [Hbad _]; [reflexivity | reflexivity |].
  destruct (put_decodes_first (widget_view None) (request "{}" ∅)
              {["id" := PyStr "9"]} widgets
              (λ _ _, rejecting "name" "required") (PyStr "9"))
    as [_ Hmissing]; [reflexivity | reflexivity |].
  split.
  - apply Hbad. reflexivity.
  - apply Hmissing. split; [exists (PyDict ∅); reflexivity | reflexivity].
Defined.

(** C5.  On a view with an add form, [post] answers a body the decoder
    rejects with 400 and the text [Invalid POST JSON], and a body that
    decodes into a form that is not valid with 400 and the marker
    [<p>ERROR: validation failed</p>] followed by [str] of the form's
    errors.  [put] does the same, with the text [Invalid PUT JSON], on a
    view with an edit form, a URL with an entry for the key and, for the
    rejected form, a row with that key. *)
Theorem bad_request_responses `{Platform} v request kwargs db :
  (∀ cls, add_form_class v = Some cls →
     (json_decoder v (body request) = None →
      post v request kwargs db = (Ok (text_response "Invalid POST JSON" 400), db))
     ∧ (∀ d, json_decoder v (body request) = Some d →
          is_valid (offer_request request (cls d)) db = false →
          post v request kwargs db
          = (Ok (text_response
                   ("<p>" +:+ "ERROR: validation failed" +:+ "</p>"
                    +:+ str_errors (errors (offer_request request (cls d)) db))
                   400),
             db)))
  ∧ (∀ cls k, edit_form_class v = Some cls → kwargs !! pk v = Some k →
     (json_decoder v (body request) = None →
      put v request kwargs db = (Ok (text_response "Invalid PUT JSON" 400), db))
     ∧ (∀ d obj, json_decoder v (body request) = Some d →
          get_pk db k = Ok obj →
          is_valid (offer_request request (cls d obj)) db = false →
          put v request kwargs db
          = (Ok (text_response
                   ("<p>" +:+ "ERROR: validation failed" +:+ "</p>"
                    +:+ str_errors (errors (offer_request request (cls d obj)) db))
                   400),
             db))).
Proof.
  split.
  - intros cls Hadd. unfold post. rewrite Hadd. split.
    + by intros ->.
    + intros d -> Hinvalid. unfold run_form. by rewrite Hinvalid.
  - intros cls k Hedit Hk. unfold put. rewrite Hedit, Hk. split.
    + by intros ->.
    + intros d obj -> Hget Hinvalid. simpl. rewrite Hget. simpl.
      unfold run_form. by rewrite Hinvalid.
Qed.

Lemma bad_request_responses_witness :
  post (widget_view None) (request "{" ∅) ∅ widgets
  = (Ok (text_response "Invalid POST JSON" 400), widgets)
  ∧ post (widget_view None) (request "{}" ∅) ∅ widgets
    = (Ok (text_response ("<p>ERROR: validation failed</p>"
                          +:+ str_errors {["name" := ["required"]]}) 400), widgets)
  ∧ put (widget_view None) (request "{}" ∅) {["id" := PyStr "2"]} widgets
    = (Ok (text_response ("<p>ERROR: validation failed</p>"
                          +:+ str_errors {["name" := ["required"]]}) 400), widgets).
Proof.
  destruct (bad_request_responses (widget_view None) (request "{" ∅) ∅ widgets)
    as [Hpost _].
  destruct (bad_request_responses (widget_view None) (request "{}" ∅) ∅ widgets)
    as [Hpost' _].
  destruct (bad_request_responses (widget_view None) (request "{}" ∅)
              {["id" := PyStr "2"]} widgets) as [_ Hput].
  split; [|split].
  - apply (Hpost (λ _, rejecting "name" "required")); reflexivity.
  - apply (Hpost' (λ _, rejecting "name" "required") eq_refl) with (d := PyDict ∅);
      reflexivity.
  - destruct (Hput (λ _ _, rejecting "name" "required") (PyStr "2"))
      as [_ Hinvalid]; [reflexivity | reflexivity |].
    apply (Hinvalid (PyDict ∅) (widget 2 "b")); reflexivity.
Defined.


(** ** The field projector *)

Lemma foldl_insert_lookup (pairs : list (string * pyval)) (acc : gmap string pyval)
    (src : gmap string pyval) (name : string) :
  Forall (λ kv, src !! kv.1 = Some kv.2) pairs →
  foldl (λ d kv, <[kv.1 := kv.2]> d) acc pairs !! name
  = if decide (name ∈ pairs.*1) then src !! name else acc !! name.
Proof.
  revert acc. induction pairs as [|[k x] pairs IH]; intros acc Hsrc.
  - rewrite decide_False; [done | apply not_elem_of_nil].
  - apply Forall_cons in Hsrc as [Hkx Hsrc]. simpl in Hkx.
    rewrite fmap_cons. cbn [foldl fst snd].
    rewrite IH by done.
    destruct (decide (name ∈ pairs.*1)) as [Hin|Hin].
    + rewrite decide_True; [done | by right].
    + destruct (decide (name = k)) as [->|Hne].
      * rewrite decide_True by left. by rewrite lookup_insert_eq.
      * rewrite decide_False; [by rewrite lookup_insert_ne|].
        intros Hin'. apply elem_of_cons in Hin' as [?|?]; done.
Qed.

Lemma getattr_pairs (obj : record) (fields : list string)
    (pairs : list (string * pyval)) :
  mapM (λ name, x ← getattr obj name; Ok (name, x)) fields = Ok pairs →
  pairs.*1 = fields ∧ Forall (λ kv, attrs obj !! kv.1 = Some kv.2) pairs.
Proof.
  revert pairs. induction fields as [|name fields IH]; intros pairs; simpl.
  - intros [= <-]. by split.
  - destruct (getattr obj name) as [x|] eqn:Hx; simpl; [|done].
    destruct (mapM _ fields) as [pairs'|]; simpl; [|done].
    intros [= <-]. destruct (IH pairs' eq_refl) as [Hfst Hall].
    unfold getattr in Hx. destruct (attrs obj !! name) as [x'|] eqn:Hx'; [|done].
    injection Hx as ->.
    split; [by rewrite fmap_cons, Hfst | by constructor].
Qed.

(** The plain dict holds the attribute of the record under every name of
    [serialize_fields], and nothing else. *)
Lemma plain_values_lookup `{Platform} v (obj : record) (plain : gmap string pyval)
    (name : string) :
  plain_values v obj = Ok plain →
  plain !! name
  = if decide (name ∈ serialize_fields v) then attrs obj !! name else None.
Proof.
  unfold plain_values. intros (pairs & Hpairs & [= <-])%bind_Ok.
  apply getattr_pairs in Hpairs as [Hfst Hall].
  rewrite (foldl_insert_lookup pairs ∅ (attrs obj)) by done.
  rewrite Hfst. by case_decide.
Qed.

(** Reading the plain fields succeeds when the record has them all. *)
Lemma plain_values_total `{Platform} v (obj : record) :
  Forall (λ name, is_Some (attrs obj !! name)) (serialize_fields v) →
  ∃ plain, plain_values v obj = Ok plain.
Proof.
  unfold plain_values. induction (serialize_fields v) as [|name fields IH];
    intros Hall; simpl.
  - eauto.
  - apply Forall_cons in Hall as [[x Hx] Hall].
    destruct (IH Hall) as [plain Hplain].
    replace (getattr obj name) with (Ok x : result pyval)
      by (unfold getattr; by rewrite Hx).
    simpl. destruct (mapM _ fields) as [pairs|]; simpl in *; [eauto | done].
Qed.

(** Assigning every entry of [custom_values] in turn is laying the computed
    fields over the plain ones. *)
Lemma custom_overlay (obj : record) (plain : gmap string pyval)
    (custom : gmap string (record → pyval)) :
  map_fold (λ name method vals, <[name := method obj]> vals) plain custom
  = ((λ method, method obj) <$> custom) ∪ plain.
Proof.
  apply (map_fold_weak_ind
           (λ r m, r = ((λ method : record → pyval, method obj) <$> m) ∪ plain)).
  - by rewrite fmap_empty, (left_id_L ∅ (∪)).
  - intros name method m r _ ->. by rewrite fmap_insert, insert_union_l.
Qed.

(** C7.  With [values_override] set, [get_values] is the override applied to
    each record, whatever [serialize_fields] and [custom_values] are.
    Without it and with a non-empty [custom_values], each record's dict is
    the plain fields read off the record with the computed fields laid over
    them: a name of [custom_values] carries the computed value, any other
    name of [serialize_fields] the attribute, and no other name is there.
    The dict exists as soon as the record has every plain field. *)
Theorem get_values_rules `{Platform} v (qs : pyseq) :
  (∀ override, values_override v = Some override →
     get_values v qs = Ok (override <$> seq_rows qs)
     ∧ ∀ v', values_override v' = Some override →
             get_values v' qs = get_values v qs)
  ∧ (values_override v = None → custom_values v ≠ ∅ →
     get_values v qs = mapM (row_values v) (seq_rows qs)
     ∧ ∀ obj,
         row_values v obj
         = (plain ← plain_values v obj;
            Ok (((λ method, method obj) <$> custom_values v) ∪ plain))
         ∧ (Forall (λ name, is_Some (attrs obj !! name)) (serialize_fields v) →
            ∃ vals, row_values v obj = Ok vals)
         ∧ ∀ vals name,
             row_values v obj = Ok vals →
             vals !! name
             = match custom_values v !! name with
               | Some method => Some (method obj)
               | None =>
                   if decide (name ∈ serialize_fields v) then attrs obj !! name
                   else None
               end).
Proof.
  split.
  - intros override Hov. unfold get_values. rewrite Hov. split; [done|].
    by intros v' ->.
  - intros Hov Hcustom. split.
    + unfold get_values. rewrite Hov.
      apply map_size_non_empty_iff, Nat.eqb_neq in Hcustom. by rewrite Hcustom.
    + intros obj.
      assert (row_values v obj
              = (plain ← plain_values v obj;
                 Ok (((λ method, method obj) <$> custom_values v) ∪ plain)))
        as Hrow.
      { unfold row_values. destruct (plain_values v obj) as [plain|]; simpl; [|done].
        by rewrite custom_overlay. }
      split; [done | split].
      * intros [plain Hplain]%(plain_values_total v). rewrite Hrow, Hplain. simpl. eauto.
      * intros vals name. rewrite Hrow.
        intros (plain & Hplain & [= <-])%bind_Ok.
        rewrite lookup_union, lookup_fmap.
        rewrite (plain_values_lookup v obj plain name Hplain).
        destruct (custom_values v !! name); simpl; [|by rewrite (left_id_L None _)].
        by case_decide; destruct (attrs obj !! name).
Qed.

(** ** Single records *)

Lemma py_slice_first {A} (x : A) (l : list A) :
  py_slice (x :: l) None (Some 1) = [x].
Proof.
  unfold py_slice, slice_bound. simpl length.
  replace (Z.max 0 (Z.min (Z.of_nat (S (length l))) (if 1 <? 0 then _ else 1)) - 0)
    with 1 by (simpl; lia).
  done.
Qed.

Lemma get_values_one `{Platform} v (obj : record) :
  get_values v (PyListOf [obj]) = (data ← projection v obj; Ok [data]).
Proof.
  unfold get_values, projection. destruct (values_override v); [done|].
  rewrite orb_true_r. simpl. by destruct (row_values v obj).
Qed.

(** The single-object path of [serialize_qs], on an evaluated queryset or a
    list: the encoded projection of the first record. *)
Lemma serialize_qs_single `{Platform} v request kwargs (obj : record) rows single :
  single || truthy (dict_get kwargs (pk v)) = true →
  (∀ table,
     serialize_qs v request kwargs (QuerySet table (Some (obj :: rows))) single
     = (data ← projection v obj; encode v (PyDict data)))
  ∧ (serialize_qs v request kwargs (PyListOf (obj :: rows)) single
     = (data ← projection v obj; encode v (PyDict data))).
Proof.
  intros Hsingle. unfold serialize_qs. rewrite Hsingle. simpl.
  rewrite py_slice_first. simpl. rewrite get_values_one.
  by destruct (projection v obj).
Qed.

(** C2.  A GET whose URL captured a truthy key, on a table where the lookup
    of that key selects [rows]: unless exactly one row is selected the
    request fails with [Http404], which the client sees as 404; with exactly
    one row the answer is the 200 response carrying the encoded projection
    of that row; and the client sees 200 only in that case. *)
Theorem get_single_requires_one `{Platform} v request kwargs db
    (k : pyval) (rows : list record) :
  kwargs !! pk v = Some k →
  truthy k = true →
  filter_pk db k = Ok rows →
  (length rows ≠ 1%nat →
   get v request kwargs db = Raise Http404
   ∧ status_of (get v request kwargs db) = 404)
  ∧ (∀ obj, rows = [obj] →
       get v request kwargs db
       = (data ← projection v obj;
          output ← encode v (PyDict data);
          Ok {| response_content := JsonText output;
                status := 200;
                mimetype := Some "application/json" |}))
  ∧ (status_of (get v request kwargs db) = 200
     ↔ ∃ obj data output,
         rows = [obj] ∧ projection v obj = Ok data
         ∧ json_encoder v (PyDict data) = Some output).
Proof.
  intros Hk Htruthy Hrows.
  assert (get v request kwargs db = get_single_item v request kwargs db) as ->.
  { unfold get, dict_get. rewrite Hk. simpl. by rewrite Htruthy. }
  assert (∀ obj, rows = [obj] →
            get_single_item v request kwargs db
            = (data ← projection v obj;
               output ← encode v (PyDict data);
               Ok (success_response output))) as Hone.
  { intros obj ->. unfold get_single_item, dict_getitem. rewrite Hk. simpl.
    rewrite Hrows. simpl.
    destruct (serialize_qs_single v request kwargs obj [] false) as [-> _].
    - unfold dict_get. rewrite Hk. simpl. by rewrite Htruthy.
    - by destruct (projection v obj). }
  assert (length rows ≠ 1%nat → get_single_item v request kwargs db = Raise Http404)
    as Hnot.
  { intros Hlen. unfold get_single_item, dict_getitem. rewrite Hk. simpl.
    rewrite Hrows. simpl. apply Nat.eqb_neq in Hlen. by rewrite Hlen. }
  split; [|split].
  - intros Hlen. by rewrite Hnot.
  - done.
  - split.
    + intros Hstatus. destruct rows as [|obj [|obj' rows]].
      * rewrite Hnot in Hstatus; done.
      * exists obj. rewrite (Hone obj eq_refl) in Hstatus.
        destruct (projection v obj) as [data|[]]; [|done..].
        exists data. simpl in Hstatus. unfold encode in Hstatus.
        destruct (json_encoder v (PyDict data)) as [output|]; [|done].
        by exists output.
      * rewrite Hnot in Hstatus; done.
    + intros (obj & data & output & -> & Hdata & Hout).
      rewrite (Hone obj eq_refl), Hdata. simpl. unfold encode. by rewrite Hout.
Qed.

(** ** Deletion *)

Lemma filter_after_delete (p : record → bool) (db : store) :
  List.filter p (List.filter (λ obj, negb (p obj)) db) = [].
Proof.
  induction db as [|obj db IH]; simpl; [done|].
  destruct (p obj) eqn:Hp; simpl; [done|]. by rewrite Hp.
Qed.

Lemma delete_pk_none_left `{Platform} (db : store) (k : pyval) (rows : list record) :
  filter_pk db k = Ok rows → filter_pk (delete_pk db k) k = Ok [].
Proof.
  unfold filter_pk, delete_pk. destruct (pk_exact k) as [p|]; simpl; [|done].
  intros _. by rewrite filter_after_delete.
Qed.

(** Deleting takes the selected rows out and keeps every other row. *)
Lemma delete_pk_keeps `{Platform} (db : store) (k : pyval) (p : record → bool)
    (obj : record) :
  pk_exact k = Some p →
  In obj (delete_pk db k) ↔ In obj db ∧ p obj = false.
Proof.
  intros Hp. unfold delete_pk. rewrite Hp, filter_In.
  destruct (p obj); simpl; split; intros [? ?]; done.
Qed.

(** A DELETE whose URL has an entry [k] for the key.  When the lookup
    selects no row the request fails with [Http404] and the table is left
    as it was.  When it selects rows, the first of them is a row of the
    table, and the rows are serialised as they stand before anything is
    deleted: if that fails nothing is deleted, otherwise the answer is the
    200 response carrying that output and the table is left without the
    selected rows, so that the same DELETE on the new table fails with
    [Http404].  For a truthy [k] the output is the encoded projection of
    the first selected row. *)
Theorem delete_reads_then_destroys `{Platform} v request kwargs db (k : pyval) :
  kwargs !! pk v = Some k →
  (filter_pk db k = Ok [] →
   delete v request kwargs db = (Raise Http404, db))
  ∧ (∀ obj rows, filter_pk db k = Ok (obj :: rows) →
       let qs := QuerySet (obj :: rows) (Some (obj :: rows)) in
       In obj db
       ∧ filter_pk (delete_pk db k) k = Ok []
       ∧ delete v request kwargs (delete_pk db k) = (Raise Http404, delete_pk db k)
       ∧ (∀ e, serialize_qs v request kwargs qs false = Raise e →
               delete v request kwargs db = (Raise e, db))
       ∧ (∀ output,
            serialize_qs v request kwargs qs false = Ok output →
            delete v request kwargs db
            = (Ok {| response_content := JsonText output;
                     status := 200;
                     mimetype := Some "application/json" |},
               delete_pk db k))
       ∧ (truthy k = true →
          serialize_qs v request kwargs qs false
          = (data ← projection v obj; encode v (PyDict data)))).
Proof.
  intros Hk.
  assert (∀ db', filter_pk db' k = Ok [] →
                 delete v request kwargs db' = (Raise Http404, db')) as Hnone.
  { intros db' Hf. unfold delete. by rewrite Hk, Hf. }
  split; [apply Hnone|].
  intros obj rows Hf qs.
  split; [|split; [|split; [|split; [|split]]]].
  - unfold filter_pk in Hf. destruct (pk_exact k) as [p|]; simpl in Hf; [|done].
    injection Hf as Hf.
    assert (In obj (List.filter p db)) as Hin by (rewrite Hf; by left).
    by apply filter_In in Hin as [? _].
  - by eapply delete_pk_none_left.
  - apply Hnone. by eapply delete_pk_none_left.
  - intros e He. unfold delete. rewrite Hk, Hf. simpl. fold qs. by rewrite He.
  - intros output Hout. unfold delete. rewrite Hk, Hf. simpl. fold qs.
    by rewrite Hout.
  - intros Htruthy.
    destruct (serialize_qs_single v request kwargs obj rows false) as [Hs _].
    { unfold dict_get. rewrite Hk. simpl. by rewrite Htruthy. }
    apply Hs.
Qed.

Lemma delete_reads_then_destroys_witness :
  let kwargs : gmap string pyval := {["id" := PyStr "3"]} in
  serialize_qs (widget_view None) (request "" ∅) kwargs
    (QuerySet [widget 3 "c"] (Some [widget 3 "c"])) false
  = encode (widget_view None) (PyDict (attrs (widget 3 "c")))
  ∧ delete (widget_view None) (request "" ∅) kwargs (delete_pk widgets (PyStr "3"))
    = (Raise Http404, delete_pk widgets (PyStr "3")).
Proof.
  intros kwargs.
  destruct (delete_reads_then_destroys (widget_view None) (request "" ∅)
              kwargs widgets (PyStr "3")) as [_ Hfound]; [reflexivity|].
  destruct (Hfound (widget 3 "c") []) as (_ & _ & Hagain & _ & _ & Htruthy);
    [reflexivity|].
  split; [|exact Hagain].
  apply Htruthy. reflexivity.
Defined.

(** C3 is not what the code does for a key that is there and falsy.  On
    the labels, whose key is a text, the URL [{'id': ''}] selects the label
    kept under the empty key: it has a projection, and [delete] deletes it,
    yet the body of the answer is not that projection but the array form of
    [serialize_qs], which tests the key for truth where [delete] tests the
    URL for the entry. *)
Theorem delete_empty_key_answers_an_array :
  let v := widget_view None in
  let kwargs : gmap string pyval := {["id" := PyStr ""]} in
  filter_pk (H := text_platform) labels (PyStr "") = Ok [label "" "blank"]
  ∧ projection v (label "" "blank") = Ok (attrs (label "" "blank"))
  ∧ ∃ object,
      json_encoder v (PyDict (attrs (label "" "blank"))) = Some object
      ∧ delete (H := text_platform) v (request "" ∅) kwargs labels
        = (Ok (success_response (JArray [object])),
           [label "a" "first"; label "b" "second"]).
Proof.
  intros v kwargs. split; [reflexivity|]. split; [reflexivity|].
  eexists. split; [reflexivity|]. vm_compute. reflexivity.
Qed.

(** ** Pagination *)

(** Between two non-negative bounds, slicing is dropping [a] elements and
    keeping at most [n] of the rest. *)
Lemma py_slice_window {A} (l : list A) (a n : Z) :
  0 ≤ a → 0 ≤ n →
  py_slice l (Some a) (Some (a + n)) = take (Z.to_nat n) (drop (Z.to_nat a) l).
Proof.
  intros Ha Hn. unfold py_slice, slice_bound.
  destruct (Z.ltb_spec a 0) as [?|_]; [lia|].
  destruct (Z.ltb_spec (a + n) 0) as [?|_]; [lia|].
  set (len := Z.of_nat (length l)).
  destruct (Z.le_gt_cases a len) as [Hle|Hgt].
  - replace (Z.to_nat (Z.max 0 (Z.min len a))) with (Z.to_nat a) by lia.
    destruct (Z.le_gt_cases (a + n) len) as [Hle'|Hgt'].
    + f_equal. lia.
    + rewrite !take_ge; [done | |]; rewrite length_drop; lia.
  - rewrite !drop_ge by lia. by rewrite !take_nil.
Qed.

Lemma values_length `{Platform} (q : pyseq) (fields : list string) vals :
  values q fields = Ok vals →
  ∃ rows cache, q = QuerySet rows cache ∧ length vals = length rows.
Proof.
  destruct q as [rows cache|rows]; simpl; [|done].
  intros (readers & _ & [= <-])%bind_Ok.
  exists rows, cache. by rewrite length_fmap.
Qed.

(** One dict per row, for a list and for a queryset that is not
    evaluated or whose cache holds what its query selects. *)
Lemma get_values_length `{Platform} v (qs : pyseq) vals :
  (∀ rows cached, qs = QuerySet rows (Some cached) → cached = rows) →
  get_values v qs = Ok vals → length vals = length (seq_rows qs).
Proof.
  intros Hcache. unfold get_values. destruct (values_override v).
  - intros [= <-]. by rewrite length_fmap.
  - case_match; [apply mapM_Ok_length|].
    intros (rows & cache & -> & ->)%values_length.
    destruct cache as [cached|]; [|done]. by rewrite (Hcache rows cached).
Qed.

(** Where the names of [serialize_fields] go through [values], they all
    have to resolve. *)
Lemma get_values_nil `{Platform} v :
  (values_override v = None → custom_values v = ∅ →
   Forall (λ name, is_Some (values_field name)) (serialize_fields v)) →
  get_values v (QuerySet [] None) = Ok [].
Proof.
  intros Hresolve. unfold get_values.
  destruct (values_override v); [done|].
  destruct (negb (size (custom_values v) =? 0)%nat) eqn:Hcustom; [done|]. simpl.
  apply negb_false_iff, Nat.eqb_eq, map_size_empty_iff in Hcustom.
  specialize (Hresolve eq_refl Hcustom).
  destruct (serialize_fields v) as [|name fields]; [done|].
  generalize dependent (name :: fields). clear name fields. intros fields Hresolve.
  assert (∃ readers,
            mapM (λ name, read ← raise_if_none FieldError (values_field name);
                          Ok (name, read)) fields = Ok readers) as [readers ->].
  { induction Hresolve as [|name fields [read Hread] _ [readers IH]]; [by eexists|].
    exists ((name, read) :: readers). simpl. by rewrite Hread, IH. }
  by destruct fields.
Qed.

(** Slicing at non-negative bounds: the window of what the sequence
    iterates, as an unevaluated queryset when the sequence is one and as a
    list otherwise. *)
Lemma paginate_slice `{Platform} v request (q : pyseq) (size offset : Z) :
  page_size v = Some size →
  page_offset v request size = offset →
  0 ≤ offset → 0 ≤ size →
  let page := take (Z.to_nat size) (drop (Z.to_nat offset) (seq_rows q)) in
  ∃ q', paginate v request q = Ok q'
        ∧ seq_rows q' = page
        ∧ (∀ rows cached, q' = QuerySet rows (Some cached) → cached = rows)
        ∧ (∀ rows, q = QuerySet rows None → q' = QuerySet page None).
Proof.
  intros Hsize Hoff Hnonneg Hsz page. unfold paginate. rewrite Hsize, Hoff.
  destruct q as [rows [cached|]|rows]; simpl.
  - destruct (Z.ltb_spec offset 0) as [?|_]; [lia|].
    destruct (Z.ltb_spec (offset + size) 0) as [?|_]; [lia|].
    simpl. rewrite py_slice_window by lia. eexists. by repeat split.
  - destruct (Z.ltb_spec offset 0) as [?|_]; [lia|].
    destruct (Z.ltb_spec (offset + size) 0) as [?|_]; [lia|].
    simpl. rewrite py_slice_window by lia. eexists. by repeat split.
  - rewrite py_slice_window by lia. eexists. by repeat split.
Qed.

Lemma get_collection_answer `{Platform} v request kwargs db (q : pyseq) :
  truthy (dict_get kwargs (pk v)) = false →
  paginate v request (QuerySet db (base_cache v)) = Ok q →
  get_collection v request kwargs db = answer_of v q.
Proof.
  intros Hfalsy Hpage. unfold get_collection, serialize_qs, answer_of.
  rewrite Hfalsy, Hpage. simpl. by destruct (get_values v q).
Qed.

Lemma get_values_no_rows `{Platform} v (q : pyseq) :
  seq_rows q = [] →
  (∀ rows cached, q = QuerySet rows (Some cached) → cached = rows) →
  (values_override v = None → custom_values v = ∅ →
   Forall (λ name, is_Some (values_field name)) (serialize_fields v)) →
  get_values v q = Ok [].
Proof.
  intros Hrows Hcache Hresolve. destruct q as [rows [cached|]|rows]; simpl in Hrows.
  - rewrite <- (Hcache rows cached eq_refl), Hrows.
    transitivity (get_values v (QuerySet [] None)); [done|].
    by apply get_values_nil.
  - rewrite Hrows. by apply get_values_nil.
  - rewrite Hrows. unfold get_values. destruct (values_override v); [done|].
    by rewrite orb_true_r.
Qed.

(** C4.  The collection of a table [db], on a view with page size
    [size >= 0] and a URL without a truthy key.  The full result set is
    what [base_queryset] iterates: the rows of the table, or its cache if
    it has been evaluated.  For a page parameter that reads as an integer
    [n >= 1] the offset is [(n - 1) * size], the page is the [size] rows of
    the result set from that offset on, or as many as are left, none at all
    from an offset at or past the end, and the answer is computed from that
    page, with one entry per row of the page, at most [size].  An empty
    page is no error: where the names of [serialize_fields] resolve the
    projection is the empty list, and the answer is the encoder's for it.
    A page parameter that [int] rejects gives offset 0 and the first page.
    Cutting a page does not evaluate [base_queryset]. *)
Theorem pagination_slice `{Platform} v request kwargs db (size : Z) :
  page_size v = Some size →
  0 ≤ size →
  truthy (dict_get kwargs (pk v)) = false →
  let full := seq_rows (QuerySet db (base_cache v)) in
  (∀ n, page_number v request = Some n → 1 ≤ n →
     let offset := (n - 1) * size in
     let page := take (Z.to_nat size) (drop (Z.to_nat offset) full) in
     page_offset v request size = offset
     ∧ (∀ i : nat, page !! i
                   = if decide (Z.of_nat i < size)
                     then full !! (Z.to_nat offset + i)%nat else None)
     ∧ Z.of_nat (length page) ≤ size
     ∧ (Z.of_nat (length full) ≤ offset → page = [])
     ∧ ∃ q, paginate v request (QuerySet db (base_cache v)) = Ok q
            ∧ seq_rows q = page
            ∧ (base_cache v = None → q = QuerySet page None)
            ∧ get_collection v request kwargs db = answer_of v q
            ∧ (∀ vals, get_values v q = Ok vals → length vals = length page)
            ∧ (page = [] →
               (values_override v = None → custom_values v = ∅ →
                Forall (λ name, is_Some (values_field name))
                       (serialize_fields v)) →
               get_values v q = Ok []
               ∧ get_collection v request kwargs db
                 = (output ← encode v (PyList []);
                    Ok (success_response output))))
  ∧ (∀ s, GET request !! page_param_name v = Some s → py_int s = None →
       page_offset v request size = 0
       ∧ ∃ q, paginate v request (QuerySet db (base_cache v)) = Ok q
              ∧ seq_rows q = take (Z.to_nat size) full
              ∧ (base_cache v = None → q = QuerySet (take (Z.to_nat size) db) None)
              ∧ get_collection v request kwargs db = answer_of v q)
  ∧ base_cache (after_get v kwargs db) = base_cache v.
Proof.
  intros Hsize Hsz Hfalsy full. split; [|split].
  - intros n Hn Hone offset page.
    assert (page_offset v request size = offset) as Hoff.
    { unfold page_offset. by rewrite Hn. }
    assert (0 ≤ offset) as Hnonneg by (unfold offset; nia).
    split; [done|]. split; [|split; [|split]].
    + intros i. unfold page. case_decide.
      * rewrite lookup_take_lt by lia. by rewrite lookup_drop.
      * by rewrite lookup_take_ge by lia.
    + unfold page. rewrite length_take. lia.
    + intros Hpast. unfold page. rewrite drop_ge by lia. by rewrite take_nil.
    + destruct (paginate_slice v request (QuerySet db (base_cache v)) size offset)
        as (q & Hq & Hrows & Hcache & Hfresh); [done..|].
      fold full page in Hrows, Hfresh.
      pose proof (get_collection_answer v request kwargs db q Hfalsy Hq) as Hget.
      exists q. split; [done|]. split; [done|]. split; [|split; [done|split]].
      * intros Hnone. subst full. rewrite Hnone in *. by apply (Hfresh db).
      * intros vals Hvals. apply get_values_length in Hvals; [|done].
        by rewrite Hvals, Hrows.
      * intros Hnil Hresolve. rewrite Hnil in Hrows.
        pose proof (get_values_no_rows v q Hrows Hcache Hresolve) as Hvals.
        split; [done|]. rewrite Hget. unfold answer_of. by rewrite Hvals.
  - intros s Hs Hbad.
    assert (page_offset v request size = 0) as Hoff.
    { unfold page_offset, page_number. by rewrite Hs, Hbad. }
    split; [done|].
    destruct (paginate_slice v request (QuerySet db (base_cache v)) size 0)
      as (q & Hq & Hrows & _ & Hfresh); [done | done | lia | done |].
    simpl in Hrows, Hfresh. fold full in Hrows, Hfresh.
    exists q. split; [done|]. split; [done|]. split.
    + intros Hnone. subst full. rewrite Hnone in *. by apply (Hfresh db).
    + by apply get_collection_answer.
  - simpl. unfold evaluated_by_get. rewrite Hfalsy, Hsize. by destruct (base_cache v).
Qed.

(** With a positive page size, a page parameter that reads as an integer
    below 1 gives a negative offset, and slicing the queryset there fails
    its assertion. *)
Lemma page_below_one `{Platform} v request kwargs db (size n : Z) :
  page_size v = Some size →
  0 < size →
  truthy (dict_get kwargs (pk v)) = false →
  page_number v request = Some n →
  n < 1 →
  page_offset v request size = (n - 1) * size
  ∧ (n - 1) * size < 0
  ∧ get v request kwargs db = Raise AssertionError.
Proof.
  intros Hsize Hpos Hfalsy Hn Hlt.
  assert (page_offset v request size = (n - 1) * size) as Hoff.
  { unfold page_offset. by rewrite Hn. }
  assert ((n - 1) * size < 0) as Hneg by nia.
  repeat split; try done.
  unfold get, get_collection, serialize_qs, paginate.
  rewrite Hfalsy, Hsize. simpl. rewrite Hoff.
  destruct (Z.ltb_spec ((n - 1) * size) 0) as [_|?]; [done | lia].
Qed.

(** C1 does not hold of the code.  On five widgets with page size 2, the
    page parameter [0] gives offset -2 and the request dies of an
    [AssertionError], which the client sees as a 500, while the page
    parameter [1] gives offset 0 and the first two widgets. *)
Theorem page_zero_is_not_page_one :
  let v := widget_view (Some 2) in
  page_offset v (request "" {["p" := "0"]}) 2 = -2
  ∧ get v (request "" {["p" := "0"]}) ∅ widgets = Raise AssertionError
  ∧ status_of (get v (request "" {["p" := "0"]}) ∅ widgets) = 500
  ∧ page_offset v (request "" {["p" := "1"]}) 2 = 0
  ∧ ∃ output,
      json_encoder v
        (PyList [PyDict (attrs (widget 1 "a")); PyDict (attrs (widget 2 "b"))])
      = Some output
      ∧ get v (request "" {["p" := "1"]}) ∅ widgets
        = Ok (success_response output).
Proof.
  intros v. do 4 (split; [reflexivity|]).
  eexists. split; [reflexivity|]. vm_compute. reflexivity.
Qed.

(** ** The theorems at work on the widgets *)

Lemma get_single_requires_one_witness :
  status_of (get (widget_view None) (request "" ∅) {["id" := PyStr "3"]} widgets)
  = 200
  ∧ get (widget_view None) (request "" ∅) {["id" := PyStr "7"]} widgets
    = Raise Http404.
Proof.
  destruct (get_single_requires_one (widget_view None) (request "" ∅)
              {["id" := PyStr "3"]} widgets (PyStr "3") [widget 3 "c"])
    as (_ & _ & Hfound); [reflexivity | reflexivity | reflexivity |].
  destruct (get_single_requires_one (widget_view None) (request "" ∅)
              {["id" := PyStr "7"]} widgets (PyStr "7") [])
    as (Hmissing & _); [reflexivity | reflexivity | reflexivity |].
  split.
  - apply Hfound. exists (widget 3 "c"), (attrs (widget 3 "c")).
    eexists. split; [reflexivity|]. split; reflexivity.
  - apply Hmissing. simpl. lia.
Defined.

Lemma pagination_slice_witness :
  let v := widget_view (Some 2) in
  paginate v (request "" {["p" := "3"]}) (QuerySet widgets None)
  = Ok (QuerySet [widget 5 "e"] None)
  ∧ get_collection v (request "" {["p" := "9"]}) ∅ widgets
    = Ok (success_response (JArray []))
  ∧ get_collection v (request "" {["p" := "x"]}) ∅ widgets
    = page_response v [widget 1 "a"; widget 2 "b"].
Proof.
  intros v.
  destruct (pagination_slice v (request "" {["p" := "3"]}) ∅ widgets 2)
    as (Hpage & _); [reflexivity | lia | reflexivity |].
  destruct (pagination_slice v (request "" {["p" := "9"]}) ∅ widgets 2)
    as (Hpast & _); [reflexivity | lia | reflexivity |].
  destruct (pagination_slice v (request "" {["p" := "x"]}) ∅ widgets 2)
    as (_ & Hbad & _); [reflexivity | lia | reflexivity |].
  split; [|split].
  - destruct (Hpage 3) as (_ & _ & _ & _ & q & Hq & _ & Hfresh & _);
      [reflexivity | lia |].
    rewrite (Hfresh eq_refl) in Hq. exact Hq.
  - destruct (Hpast 9) as (_ & _ & _ & _ & q & _ & _ & _ & _ & _ & Hempty);
      [reflexivity | lia |].
    destruct Hempty as [_ Hget]; [reflexivity | |exact Hget].
    intros _ _. repeat constructor; eexists; reflexivity.
  - destruct (Hbad "x") as (_ & q & _ & _ & Hfresh & Hget);
      [reflexivity | reflexivity |].
    rewrite (Hfresh eq_refl) in Hget. exact Hget.
Defined.

Lemma rejects_405_exactly_witness :
  dispatch plain_view POST_ (request "{}" ∅) ∅ widgets
  = (Ok (text_response "POST not supported" 405), widgets)
  ∧ dispatch plain_view DELETE_ (request "" ∅) ∅ widgets
    = (Ok (text_response "DELETE is not supported for collections" 405), widgets)
  ∧ status_of (dispatch plain_view PUT_ (request "{}" ∅)
                 {["id" := PyStr "1"]} widgets).1 = 405.
Proof.
  destruct (rejects_405_exactly plain_view PUT_ (request "{}" ∅)
              {["id" := PyStr "1"]} widgets) as (Hiff & _).
  destruct (rejects_405_exactly plain_view POST_ (request "{}" ∅) ∅ widgets)
    as (_ & Hpost & _).
  destruct (rejects_405_exactly plain_view DELETE_ (request "" ∅) ∅ widgets)
    as (_ & _ & _ & Hdelete).
  split; [|split].
  - apply Hpost. reflexivity.
  - apply Hdelete. reflexivity.
  - apply Hiff. right. left. split; [reflexivity | left; reflexivity].
Defined.

Lemma get_values_rules_witness :
  ∃ vals, row_values computed_view (widget 1 "a") = Ok vals
          ∧ vals !! "name" = Some (PyStr "a!")
          ∧ vals !! "id" = Some (PyInt 1).
Proof.
  destruct (get_values_rules computed_view (PyListOf widgets)) as [_ Hcustom].
  destruct Hcustom as [_ Hrow].
  - reflexivity.
  - apply map_non_empty_singleton.
  - destruct (Hrow (widget 1 "a")) as (_ & Htotal & Hlookup).
    destruct Htotal as [vals Hvals].
    + repeat constructor; eexists; reflexivity.
    + exists vals. split; [exact Hvals|].
      split; rewrite (Hlookup vals _ Hvals); reflexivity.
Defined.

(** * Further properties of the view *)

(** ** Pages *)

(** The pages tile the table: page [n] is exactly what takes the first
    [(n - 1) * size] rows to the first [n * size] rows, so consecutive pages
    neither overlap nor skip a row, and a page is empty exactly when its
    offset is at or past the end of the table. *)
Theorem pages_tile `{Platform} v request (db : store) (size n : Z) :
  page_size v = Some size →
  0 < size →
  page_number v request = Some n →
  1 ≤ n →
  ∃ q, paginate v request (QuerySet db None) = Ok q
       ∧ take (Z.to_nat ((n - 1) * size)) db ++ seq_rows q
         = take (Z.to_nat (n * size)) db
       ∧ (seq_rows q = [] ↔ Z.of_nat (length db) ≤ (n - 1) * size).
Proof.
  intros Hsize Hpos Hn Hone.
  destruct (paginate_slice v request (QuerySet db None) size ((n - 1) * size))
    as (q & Hq & Hrows & _); [done | | nia | lia |].
  { unfold page_offset. by rewrite Hn. }
  exists q. split; [done|]. rewrite Hrows. simpl. split.
  - rewrite take_take_drop. f_equal. nia.
  - rewrite <- length_zero_iff_nil, length_take, length_drop. nia.
Qed.

Lemma pages_tile_witness :
  ∃ q, paginate (widget_view (Some 2)) (request "" {["p" := "2"]})
         (QuerySet widgets None) = Ok q
       ∧ take 2 widgets ++ seq_rows q = take 4 widgets.
Proof.
  destruct (pages_tile (widget_view (Some 2)) (request "" {["p" := "2"]})
              widgets 2 2) as (q & Hq & Htile & _);
    [reflexivity | lia | reflexivity | lia |].
  exists q. split; [exact Hq | exact Htile].
Defined.

(** ** The collection and the cache of [base_queryset] *)

Lemma collection_unpaginated `{Platform} v request kwargs (db : store) :
  page_size v = None →
  truthy (dict_get kwargs (pk v)) = false →
  get v request kwargs db
  = (vals ← get_values v (QuerySet db (base_cache v));
     output ← encode v (PyList (PyDict <$> vals));
     Ok (success_response output)).
Proof.
  intros Hsize Hfalsy. unfold get, get_collection, serialize_qs, paginate.
  rewrite Hfalsy, Hsize. simpl. by destruct (get_values v _).
Qed.

Lemma get_values_native `{Platform} v (rows : list record) cache :
  values_override v = None →
  custom_values v = ∅ →
  get_values v (QuerySet rows cache) = get_values v (QuerySet rows None).
Proof.
  intros Hov Hcustom. unfold get_values. by rewrite Hov, Hcustom.
Qed.

Lemma get_values_iterated `{Platform} v (q q' : pyseq) :
  iterates v q = true → iterates v q' = true → seq_rows q = seq_rows q' →
  get_values v q = get_values v q'.
Proof.
  unfold iterates, get_values. destruct (values_override v); [by intros _ _ ->|].
  by intros -> -> ->.
Qed.

(** Without a page size the page parameter is never read: any two requests
    for the collection get the same answer.  From a [base_queryset] that
    has not been evaluated the answer is built from the whole table, one
    entry per row.  That is also so, whatever the cache holds, where the
    rows go through [values], and the request then leaves the cache as it
    is.  But where the rows of an evaluated [base_queryset] are read one by
    one, the answer is built from the cache, whatever the table holds. *)
Theorem unpaginated_collection `{Platform} v request kwargs (db : store) :
  page_size v = None →
  truthy (dict_get kwargs (pk v)) = false →
  (∀ request', get v request' kwargs db = get v request kwargs db)
  ∧ (base_cache v = None →
     get v request kwargs db = page_response v db
     ∧ ∀ vals, get_values v (QuerySet db None) = Ok vals →
               length vals = length db)
  ∧ (values_override v = None → custom_values v = ∅ →
     get v request kwargs db = page_response v db
     ∧ base_cache (after_get v kwargs db) = base_cache v)
  ∧ (∀ cached, base_cache v = Some cached →
       values_override v ≠ None ∨ custom_values v ≠ ∅ →
       ∀ db', get v request kwargs db' = get v request kwargs db).
Proof.
  intros Hsize Hfalsy.
  pose proof (λ r db', collection_unpaginated v r kwargs db' Hsize Hfalsy) as Hall.
  split; [|split; [|split]].
  - intros request'. by rewrite !Hall.
  - intros Hcache. split.
    + rewrite Hall, Hcache. done.
    + intros vals Hvals. by apply get_values_length in Hvals.
  - intros Hov Hcustom. split.
    + rewrite Hall. by rewrite (get_values_native v db _ Hov Hcustom).
    + simpl. unfold evaluated_by_get, iterates.
      rewrite Hfalsy, Hsize, Hov, Hcustom. by destruct (base_cache v).
  - intros cached Hcache Hiter db'. rewrite !Hall, Hcache.
    rewrite (get_values_iterated v (QuerySet db' (Some cached))
               (QuerySet db (Some cached))); [done | | | done].
    + unfold iterates. destruct (values_override v); [done|].
      destruct Hiter as [?|Hcustom]; [done|].
      apply map_size_non_empty_iff, Nat.eqb_neq in Hcustom. by rewrite Hcustom.
    + unfold iterates. destruct (values_override v); [done|].
      destruct Hiter as [?|Hcustom]; [done|].
      apply map_size_non_empty_iff, Nat.eqb_neq in Hcustom. by rewrite Hcustom.
Qed.

Lemma unpaginated_collection_witness :
  get (widget_view None) (request "" {["p" := "0"]}) ∅ widgets
  = page_response (widget_view None) widgets.
Proof.
  destruct (unpaginated_collection (widget_view None) (request "" {["p" := "0"]})
              ∅ widgets) as (_ & Hfresh & _); [reflexivity | reflexivity |].
  destruct Hfresh as [Hall _]; [reflexivity|].
  exact Hall.
Defined.

(** The first collection GET of an unpaginated view that reads its rows
    one by one, through [values_override] or with [custom_values],
    evaluates [base_queryset]; every later one is answered as the first
    was, whatever has become of the table. *)
Theorem evaluated_collection_is_stale `{Platform} v request kwargs (db : store) :
  page_size v = None →
  truthy (dict_get kwargs (pk v)) = false →
  base_cache v = None →
  values_override v ≠ None ∨ custom_values v ≠ ∅ →
  base_cache (after_get v kwargs db) = Some db
  ∧ ∀ request' db',
      get (after_get v kwargs db) request' kwargs db' = get v request kwargs db.
Proof.
  intros Hsize Hfalsy Hcache Hiter.
  assert (∀ q, iterates v q = true) as Hiterates.
  { intros q. unfold iterates. destruct (values_override v); [done|].
    destruct Hiter as [?|Hcustom]; [done|].
    apply map_size_non_empty_iff, Nat.eqb_neq in Hcustom. by rewrite Hcustom. }
  assert (base_cache (after_get v kwargs db) = Some db) as Hafter.
  { simpl. unfold evaluated_by_get. by rewrite Hcache, Hfalsy, Hsize, Hiterates. }
  split; [done|]. intros request' db'.
  rewrite (collection_unpaginated (after_get v kwargs db)) by done.
  rewrite (collection_unpaginated v) by done.
  rewrite Hafter, Hcache.
  replace (get_values (after_get v kwargs db) (QuerySet db' (Some db)))
    with (get_values v (QuerySet db' (Some db))) by done.
  by rewrite (get_values_iterated v (QuerySet db' (Some db)) (QuerySet db None)).
Qed.

Lemma evaluated_collection_is_stale_witness :
  get (after_get computed_view ∅ widgets) (request "" ∅) ∅ []
  = get computed_view (request "" ∅) ∅ widgets.
Proof.
  destruct (evaluated_collection_is_stale computed_view (request "" ∅) ∅ widgets)
    as [_ Hstale]; [reflexivity | reflexivity | reflexivity | |].
  - right. apply map_non_empty_singleton.
  - apply Hstale.
Defined.

(** ** Reading fields off a record *)

Lemma plain_values_missing `{Platform} v (obj : record) :
  (∃ name, name ∈ serialize_fields v ∧ attrs obj !! name = None)
  → plain_values v obj = Raise AttributeError.
Proof.
  intros (name & Hin & Hnone).
  destruct (plain_values v obj) as [plain|e] eqn:Hplain.
  - apply (plain_values_lookup v obj plain name) in Hplain as Hlookup.
    rewrite decide_True in Hlookup by done.
    unfold plain_values in Hplain.
    apply bind_Ok in Hplain as (pairs & Hpairs & _).
    apply getattr_pairs in Hpairs as [Hfst Hall].
    rewrite <- Hfst in Hin. apply list_elem_of_fmap in Hin as ([k x] & -> & Hkx).
    rewrite Forall_forall in Hall. specialize (Hall _ Hkx). simpl in *. congruence.
  - by apply plain_values_Raise in Hplain as ->.
Qed.

(** The dict of a record in the per-object branch exists exactly when the
    record has every attribute named in [serialize_fields], and otherwise
    the failure is an [AttributeError].  [custom_values] plays no part in
    this: a computed field shadows a plain field of the same name in the
    output, but the attribute is read all the same and has to be there. *)
Theorem row_values_needs_every_field `{Platform} v (obj : record) :
  ((∃ vals, row_values v obj = Ok vals)
   ↔ Forall (λ name, is_Some (attrs obj !! name)) (serialize_fields v))
  ∧ (row_values v obj = Raise AttributeError
     ↔ ∃ name, name ∈ serialize_fields v ∧ attrs obj !! name = None)
  ∧ (∀ e, row_values v obj = Raise e → e = AttributeError).
Proof.
  assert (∀ e, row_values v obj = Raise e → e = AttributeError) as Honly.
  { intros e. unfold row_values.
    intros [He|(? & _ & ?)]%bind_Raise; [|done]. by eapply plain_values_Raise. }
  assert ((∃ name, name ∈ serialize_fields v ∧ attrs obj !! name = None)
          → row_values v obj = Raise AttributeError) as Hmissing.
  { intros Hex. unfold row_values. by rewrite (plain_values_missing v obj Hex). }
  split; [|split; [|done]].
  - split.
    + intros [vals Hvals]. apply Forall_forall. intros name Hin.
      destruct (attrs obj !! name) as [x|] eqn:Hx; [by eexists|].
      rewrite Hmissing in Hvals; [done | by exists name].
    + intros [plain Hplain]%(plain_values_total v).
      unfold row_values. rewrite Hplain. simpl. eauto.
  - split; [|done]. intros Hraise.
    destruct (decide (Forall (λ name, is_Some (attrs obj !! name))
                             (serialize_fields v))) as [Hall|Hnot].
    + apply (plain_values_total v) in Hall as [plain Hplain].
      unfold row_values in Hraise. by rewrite Hplain in Hraise.
    + apply not_Forall_Exists in Hnot; [|apply _].
      apply Exists_exists in Hnot as (name & Hin & Hnone).
      exists name. split; [done|].
      simpl in Hnone. destruct (attrs obj !! name) as [x|]; [|done].
      destruct Hnone. by exists x.
Qed.

Lemma row_values_needs_every_field_witness :
  row_values computed_view {| attrs := {["id" := PyInt 9]} |} = Raise AttributeError.
Proof.
  destruct (row_values_needs_every_field computed_view
              {| attrs := {["id" := PyInt 9]} |}) as (_ & [_ Hmissing] & _).
  apply Hmissing. exists "name". split; [|reflexivity].
  apply list_elem_of_In. right. left. reflexivity.
Defined.

(** ** The two ways to a row's dict *)

Lemma values_row_pairs (readers : list (string * (record → pyval))) (obj : record)
    (d : gmap string pyval) :
  foldl (λ d kv, <[kv.1 := kv.2]> d) d ((λ r, (r.1, r.2 obj)) <$> readers)
  = foldl (λ d reader, <[reader.1 := reader.2 obj]> d) d readers.
Proof.
  revert d. induction readers as [|r readers IH]; intros d; [done|].
  simpl. apply IH.
Qed.

(** Where every name resolves, and the attribute of a record under a name
    is what the name's reader gives, resolving the names and reading the
    attributes go together. *)
Lemma resolve_and_getattr `{Platform} (fields : list string) :
  Forall (λ name, is_Some (values_field name)) fields →
  ∃ readers : list (string * (record → pyval)),
    mapM (λ name, read ← raise_if_none FieldError (values_field name);
                  Ok (name, read)) fields = Ok readers
    ∧ ∀ obj,
        (∀ name read, name ∈ fields → values_field name = Some read →
                      attrs obj !! name = Some (read obj)) →
        mapM (λ name, x ← getattr obj name; Ok (name, x)) fields
        = Ok ((λ r, (r.1, r.2 obj)) <$> readers).
Proof.
  induction 1 as [|name fields [read Hread] _ (readers & Hreaders & IH)].
  - by exists [].
  - exists ((name, read) :: readers). split.
    + simpl. by rewrite Hread, Hreaders.
    + intros obj Hattrs. cbn [mapM].
      assert (getattr obj name = Ok (read obj)) as ->.
      { unfold getattr. rewrite (Hattrs name read); [done | by left | done]. }
      simpl. rewrite IH; [done|]. intros name' read' Hin. apply Hattrs. by right.
Qed.

(** With no override, no computed fields and at least one name in
    [serialize_fields], the native branch of [get_values] (a queryset, read
    through [values]) and the per-object branch (a plain list, read through
    [getattr]) build the same dicts where every name resolves to a field
    and every record holds, under each name, the value of that field.  A
    name that does not resolve makes the native branch fail even when there
    is no row to read, where the per-object branch has nothing to fail
    on. *)
Theorem native_projection_agrees `{Platform} v (rows : list record)
    (cache : option (list record)) :
  values_override v = None →
  custom_values v = ∅ →
  serialize_fields v ≠ [] →
  ((∀ name, name ∈ serialize_fields v →
      ∃ read, values_field name = Some read
              ∧ ∀ obj, obj ∈ rows → attrs obj !! name = Some (read obj)) →
   get_values v (QuerySet rows cache) = get_values v (PyListOf rows))
  ∧ ((∃ name, name ∈ serialize_fields v ∧ values_field name = None) →
     get_values v (QuerySet [] cache) = Raise FieldError
     ∧ get_values v (PyListOf []) = Ok []).
Proof.
  intros Hov Hcustom Hfields. split.
  - intros Hagree.
    destruct (resolve_and_getattr (serialize_fields v)) as (readers & Hreaders & Hget).
    { apply Forall_forall. intros name Hin.
      destruct (Hagree name Hin) as (read & -> & _). by eexists. }
    unfold get_values. rewrite Hov, Hcustom, map_size_empty. simpl.
    destruct (serialize_fields v) as [|name fields] eqn:Hnames; [done|].
    rewrite Hreaders. simpl.
    assert (∀ obj, obj ∈ rows → row_values v obj = Ok (values_row readers obj))
      as Hrow.
    { intros obj Hobj. unfold row_values, plain_values.
      rewrite Hcustom, Hnames, Hget.
      - simpl. by rewrite map_fold_empty, values_row_pairs.
      - intros name' read' Hin Hread'.
        destruct (Hagree name' Hin) as (read & Hread & Hattr).
        rewrite Hread in Hread'. injection Hread' as <-. by apply Hattr. }
    clear Hagree Hget. induction rows as [|obj rows IH]; [done|].
    simpl. rewrite Hrow by left. simpl.
    rewrite <- IH; [done|]. intros obj' Hin. apply Hrow. by right.
  - intros (name & Hin & Hnone). split.
    + unfold get_values. rewrite Hov, Hcustom, map_size_empty. simpl.
      destruct (serialize_fields v) as [|name' fields]; [done|].
      destruct (mapM _ (name' :: fields)) as [readers|e] eqn:Hreaders.
      * exfalso. clear Hfields. revert readers Hreaders.
        induction (name' :: fields) as [|n l IH]; intros readers; simpl.
        { by apply elem_of_nil in Hin. }
        destruct (values_field n) as [read|] eqn:Hread; simpl; [|done].
        destruct (mapM _ l) as [readers'|] eqn:Hl; simpl; [|done].
        apply elem_of_cons in Hin as [->|Hin]; [congruence|].
        intros _. by eapply IH.
      * simpl. apply mapM_Raise in Hreaders as (n & _ & Hn).
        destruct (values_field n); simpl in Hn; congruence.
    + unfold get_values. by rewrite Hov, Hcustom.
Qed.

Lemma native_projection_agrees_witness :
  get_values (widget_view None) (QuerySet [widget 1 "a"] None)
  = get_values (widget_view None) (PyListOf [widget 1 "a"]).
Proof.
  destruct (native_projection_agrees (widget_view None) [widget 1 "a"] None)
    as [Hsame _]; [reflexivity | reflexivity | discriminate |].
  apply Hsame. intros name Hin.
  apply elem_of_cons in Hin as [->|Hin].
  - exists (column "id"). split; [reflexivity|].
    intros obj Hobj. apply list_elem_of_singleton in Hobj as ->. reflexivity.
  - apply list_elem_of_singleton in Hin as ->.
    exists (column "name"). split; [reflexivity|].
    intros obj Hobj. apply list_elem_of_singleton in Hobj as ->. reflexivity.
Defined.

(** With no override, no computed fields and no name in [serialize_fields]
    the two branches part: a queryset is projected natively and every dict
    holds all the fields of the model, a plain list is read name by name
    and every dict is empty.  So the collection lists every field of every
    record, while the single record of a GET with a key, cut out of an
    evaluated queryset, is answered as the empty object. *)
Theorem no_fields_named `{Platform} v request kwargs (db : store) :
  values_override v = None →
  custom_values v = ∅ →
  serialize_fields v = [] →
  (∀ rows cache,
     get_values v (QuerySet rows cache) = Ok (values_row model_fields <$> rows)
     ∧ get_values v (PyListOf rows) = Ok ((λ _, ∅) <$> rows))
  ∧ (page_size v = None → truthy (dict_get kwargs (pk v)) = false →
     get v request kwargs db
     = (output ← encode v (PyList ((λ obj, PyDict (values_row model_fields obj))
                                    <$> db));
        Ok (success_response output)))
  ∧ (∀ k obj, kwargs !! pk v = Some k → truthy k = true →
       filter_pk db k = Ok [obj] →
       get v request kwargs db
       = (output ← encode v (PyDict ∅); Ok (success_response output))).
Proof.
  intros Hov Hcustom Hfields.
  assert (∀ rows cache,
            get_values v (QuerySet rows cache) = Ok (values_row model_fields <$> rows))
    as Hnative.
  { intros rows cache. unfold get_values, values. rewrite Hov, Hcustom, Hfields.
    by rewrite map_size_empty. }
  assert (∀ obj, row_values v obj = Ok ∅) as Hrow.
  { intros obj. unfold row_values, plain_values. rewrite Hcustom, Hfields. simpl.
    by rewrite map_fold_empty. }
  split; [|split].
  - intros rows cache. split; [apply Hnative|].
    unfold get_values. rewrite Hov, orb_true_r.
    induction rows as [|obj rows IH]; [done|]. simpl in *. by rewrite Hrow, IH.
  - intros Hsize Hfalsy.
    rewrite collection_unpaginated by done. rewrite Hnative. simpl.
    by rewrite <- list_fmap_compose.
  - intros k obj Hk Htruthy Hrows.
    assert (truthy (dict_get kwargs (pk v)) = true) as Hsingle.
    { unfold dict_get. by rewrite Hk. }
    unfold get, get_single_item, dict_getitem. rewrite Hsingle, Hk. simpl.
    rewrite Hrows. simpl.
    destruct (serialize_qs_single v request kwargs obj [] false) as [-> _];
      [done|].
    unfold projection. by rewrite Hov, Hrow.
Qed.

Lemma no_fields_named_witness :
  (∃ output,
     json_encoder plain_view (PyList ((λ obj, PyDict (attrs obj)) <$> widgets))
     = Some output
     ∧ get plain_view (request "" ∅) ∅ widgets = Ok (success_response output))
  ∧ get plain_view (request "" ∅) {["id" := PyStr "3"]} widgets
    = Ok (success_response (JObject ∅)).
Proof.
  destruct (no_fields_named plain_view (request "" ∅) ∅ widgets)
    as (_ & Hlist & _); [reflexivity | reflexivity | reflexivity |].
  destruct (no_fields_named plain_view (request "" ∅) {["id" := PyStr "3"]} widgets)
    as (_ & _ & Hone); [reflexivity | reflexivity | reflexivity |].
  split.
  - eexists. split; [reflexivity|].
    etrans; [apply Hlist; reflexivity|]. vm_compute. reflexivity.
  - etrans; [apply (Hone (PyStr "3") (widget 3 "c")); reflexivity|]. reflexivity.
Defined.

(** ** What leaves the handlers *)

Lemma filter_pk_Ok `{Platform} (db : store) (k : pyval) (rows : list record) :
  filter_pk db k = Ok rows →
  ∃ p, pk_exact k = Some p ∧ rows = List.filter p db.
Proof.
  unfold filter_pk. destruct (pk_exact k) as [p|]; simpl; [|done].
  intros [= <-]. eauto.
Qed.

Lemma projection_Raise `{Platform} v (obj : record) (e : exn) :
  projection v obj = Raise e → e = AttributeError.
Proof.
  unfold projection. destruct (values_override v); [done|].
  unfold row_values. intros [He|(? & _ & ?)]%bind_Raise; [|done].
  by eapply plain_values_Raise.
Qed.

(** Closes a goal from a hypothesis that puts an exception in a list of
    other exceptions. *)
Ltac not_listed Hin :=
  repeat (apply elem_of_cons in Hin as [?|Hin]; [done|]);
  by apply elem_of_nil in Hin.

(** The collection path of [serialize_qs] raises no [IndexError]. *)
Lemma serialize_qs_list_Raise `{Platform} v request kwargs qs (e : exn) :
  truthy (dict_get kwargs (pk v)) = false →
  serialize_qs v request kwargs qs false = Raise e →
  e ∈ [AssertionError; AttributeError; FieldError; ValueError].
Proof.
  intros Hfalsy. unfold serialize_qs. rewrite Hfalsy. simpl.
  intros [Hp|(q & _ & Hr)]%bind_Raise.
  - unfold paginate in Hp. destruct (page_size v); [|done].
    apply getslice_Raise in Hp as ->. listed.
  - apply bind_Raise in Hr as [Hv|(vals & _ & He)].
    + apply get_values_Raise in Hv as [-> | ->]; listed.
    + apply encode_Raise in He as ->. listed.
Qed.

(** On an evaluated queryset or a list that is not empty, what
    [serialize_qs] raises is never [IndexError]: the [[0]] of the
    single-object path always finds its dict. *)
Lemma serialize_qs_nonempty_Raise `{Platform} v request kwargs (obj : record)
    rows (single : bool) (e : exn) :
  serialize_qs v request kwargs (QuerySet (obj :: rows) (Some (obj :: rows))) single
  = Raise e
  ∨ serialize_qs v request kwargs (PyListOf (obj :: rows)) single = Raise e →
  e ∈ [AssertionError; AttributeError; FieldError; ValueError].
Proof.
  destruct (single || truthy (dict_get kwargs (pk v))) eqn:Hsingle.
  - destruct (serialize_qs_single v request kwargs obj rows single Hsingle)
      as [Hq Hl].
    rewrite Hq, Hl. intros Hr.
    assert ((data ← projection v obj; encode v (PyDict data)) = Raise e) as Hr'
      by (by destruct Hr).
    apply bind_Raise in Hr' as [Hp|(data & _ & He)].
    + apply projection_Raise in Hp as ->. listed.
    + apply encode_Raise in He as ->. listed.
  - apply orb_false_iff in Hsingle as [-> Hfalsy].
    intros [Hs|Hs]; by eapply serialize_qs_list_Raise.
Qed.

(** The two unguarded accesses of the view, [kwargs[self.pk]] in
    [get_single_item] and the [[0]] of the single-object path of
    [serialize_qs], cannot fail in any handler: whatever the view, the
    method, the request, the URL and the table are, neither [KeyError] nor
    [IndexError] leaves the view. *)
Theorem no_key_or_index_error `{Platform} v (m : http_method) request kwargs
    (db : store) :
  (dispatch v m request kwargs db).1 ≠ Raise KeyError
  ∧ (dispatch v m request kwargs db).1 ≠ Raise IndexError.
Proof.
  assert (∀ (obj : record) rows single e,
            e = KeyError ∨ e = IndexError →
            (output ← serialize_qs v request kwargs
                        (QuerySet (obj :: rows) (Some (obj :: rows))) single;
             Ok (success_response output)) ≠ Raise e
            ∧ (output ← serialize_qs v request kwargs (PyListOf (obj :: rows))
                          single;
               Ok (success_response output)) ≠ Raise e) as Hser.
  { intros obj rows single e He. split.
    - intros [Hs|(? & _ & ?)]%bind_Raise; [|done].
      pose proof (serialize_qs_nonempty_Raise v request kwargs obj rows
                    single e (or_introl Hs)) as Hin.
      destruct He as [-> | ->]; not_listed Hin.
    - intros [Hs|(? & _ & ?)]%bind_Raise; [|done].
      pose proof (serialize_qs_nonempty_Raise v request kwargs obj rows
                    single e (or_intror Hs)) as Hin.
      destruct He as [-> | ->]; not_listed Hin. }
  assert (∀ e, e = KeyError ∨ e = IndexError →
               (dispatch v m request kwargs db).1 ≠ Raise e) as Hall.
  { intros e He. destruct m; simpl.
    - unfold get, get_single_item, get_collection.
      destruct (truthy (dict_get kwargs (pk v))) eqn:Htruthy.
      + unfold dict_get in Htruthy. unfold dict_getitem.
        destruct (kwargs !! pk v) as [k|]; [|done]. simpl.
        destruct (filter_pk db k) as [rows|e'] eqn:Hf; simpl.
        * destruct rows as [|obj [|obj' rows]]; simpl.
          -- destruct He as [-> | ->]; done.
          -- apply (Hser obj [] false e He).
          -- destruct He as [-> | ->]; done.
        * apply filter_pk_Raise in Hf as ->. destruct He as [-> | ->]; done.
      + intros [Hs|(? & _ & ?)]%bind_Raise; [|done].
        pose proof (serialize_qs_list_Raise v request kwargs _ e Htruthy Hs) as Hin.
        destruct He as [-> | ->]; not_listed Hin.
    - unfold post. destruct (add_form_class v) as [cls|]; [|done].
      destruct (json_decoder v (body request)) as [d|]; [|done].
      unfold run_form. destruct (is_valid _ db); [|done].
      destruct (save _ db) as [obj db']. simpl.
      apply (Hser obj [] true e He).
    - unfold put. destruct (edit_form_class v) as [cls|]; [|done].
      destruct (kwargs !! pk v) as [k|]; [|done].
      destruct (json_decoder v (body request)) as [d|]; simpl; [|done].
      destruct (get_pk db k) as [obj|e'] eqn:Hget; simpl.
      + unfold run_form. destruct (is_valid _ db); [|done].
        destruct (save _ db) as [obj' db']. simpl.
        apply (Hser obj' [] true e He).
      + destruct (get_pk_Raise db k e' Hget) as [-> | [-> | ->]];
          destruct He as [-> | ->]; done.
    - unfold delete. destruct (kwargs !! pk v) as [k|]; [|done].
      destruct (filter_pk db k) as [rows|e'] eqn:Hf; simpl.
      + destruct rows as [|obj rows]; simpl; [destruct He as [-> | ->]; done|].
        destruct (serialize_qs v request kwargs
                    (QuerySet (obj :: rows) (Some (obj :: rows))) false)
          as [out|e''] eqn:Hs; simpl; [done|].
        pose proof (serialize_qs_nonempty_Raise v request kwargs obj rows
                      false e'' (or_introl Hs)) as Hin.
        intros [= ->]. destruct He as [-> | ->]; not_listed Hin.
      + apply filter_pk_Raise in Hf as ->. destruct He as [-> | ->]; done. }
  split; apply Hall; auto.
Qed.

(** ** Statuses *)

(** Each handler has its own statuses: a GET is never answered with 400 or
    405, a POST never with 404, a DELETE never with 400, and nothing but
    200, 400, 404, 405 and the 500 of an escaping exception is ever seen. *)
Theorem handler_statuses `{Platform} v (m : http_method) request kwargs
    (db : store) :
  let s := status_of (dispatch v m request kwargs db).1 in
  match m with
  | GET_ => s = 200 ∨ s = 404 ∨ s = 500
  | POST_ => s = 200 ∨ s = 400 ∨ s = 405 ∨ s = 500
  | PUT_ => s = 200 ∨ s = 400 ∨ s = 404 ∨ s = 405 ∨ s = 500
  | DELETE_ => s = 200 ∨ s = 404 ∨ s = 405 ∨ s = 500
  end.
Proof.
  destruct m; simpl.
  - unfold get, get_single_item, get_collection.
    destruct (truthy _).
    + destruct (dict_getitem kwargs (pk v)) as [k|[]]; simpl; auto.
      destruct (filter_pk db k) as [rows|[]]; simpl; auto.
      destruct (length rows =? 1)%nat; simpl; auto.
      destruct (success_status v request kwargs (QuerySet rows (Some rows)) false); auto.
    + destruct (success_status v request kwargs (QuerySet db (base_cache v)) false); auto.
  - unfold post. destruct (add_form_class v) as [cls|]; simpl; auto.
    destruct (json_decoder v (body request)) as [d|]; simpl; auto.
    destruct (run_form_status v request kwargs (cls d) db) as [?|[?|?]]; auto.
  - unfold put. destruct (edit_form_class v) as [cls|]; simpl; auto.
    destruct (kwargs !! pk v) as [k|]; simpl; auto.
    destruct (json_decoder v (body request)) as [d|]; simpl; auto.
    destruct (get_pk db k) as [obj|[]]; simpl; auto 6.
    destruct (run_form_status v request kwargs (cls d obj) db) as [?|[?|?]]; auto 6.
  - unfold delete. destruct (kwargs !! pk v) as [k|]; simpl; auto.
    destruct (filter_pk db k) as [rows|[]]; simpl; auto.
    destruct (negb _); simpl; auto.
    destruct (serialize_qs v request kwargs (QuerySet rows (Some rows)) false)
      as [out|e] eqn:Hs; simpl; auto.
    apply serialize_qs_Raise in Hs.
    repeat (apply elem_of_cons in Hs as [->|Hs]; [simpl; auto|]).
    by apply elem_of_nil in Hs.
Qed.

(** A 404 means what it says.  GET is answered with 404 exactly when the
    URL captured a truthy key and the lookup selects no row or several
    rows; DELETE exactly when the URL has an entry for the key and the
    lookup selects no row.  No failure further down the handler shows up as
    a 404. *)
Theorem not_found_exactly `{Platform} v request kwargs (db : store) :
  (status_of (get v request kwargs db) = 404
   ↔ ∃ k rows, kwargs !! pk v = Some k ∧ truthy k = true
               ∧ filter_pk db k = Ok rows ∧ length rows ≠ 1%nat)
  ∧ (status_of (delete v request kwargs db).1 = 404
     ↔ ∃ k, kwargs !! pk v = Some k ∧ filter_pk db k = Ok []).
Proof.
  split.
  - unfold get, get_single_item, get_collection, dict_get, dict_getitem.
    destruct (kwargs !! pk v) as [k|]; simpl.
    + destruct (truthy k) eqn:Htruthy.
      * destruct (filter_pk db k) as [rows|e] eqn:Hf; simpl.
        -- destruct (length rows =? 1)%nat eqn:Hlen; simpl.
           ++ split.
              ** destruct (success_status v request kwargs
                            (QuerySet rows (Some rows)) false)
                   as [Hs|Hs]; simpl in Hs; rewrite Hs; done.
              ** intros (k' & rows' & [= <-] & _ & Hf' & Hne).
                 rewrite Hf in Hf'. injection Hf' as <-.
                 by apply Nat.eqb_eq in Hlen.
           ++ split; [|done]. intros _. exists k, rows.
              by apply Nat.eqb_neq in Hlen.
        -- apply filter_pk_Raise in Hf as Hv. subst e. simpl.
           split; [done|]. intros (k' & rows' & [= <-] & _ & Hf' & _). congruence.
      * split.
        -- destruct (success_status v request kwargs (QuerySet db (base_cache v)) false)
             as [Hs|Hs]; simpl in Hs; rewrite Hs; done.
        -- intros (k' & rows' & [= <-] & Ht & _). congruence.
    + split.
      * destruct (success_status v request kwargs (QuerySet db (base_cache v)) false)
          as [Hs|Hs]; simpl in Hs; rewrite Hs; done.
      * by intros (k' & rows' & ? & _).
  - unfold delete. destruct (kwargs !! pk v) as [k|]; simpl.
    + destruct (filter_pk db k) as [[|obj rows]|e] eqn:Hf; simpl.
      * split; [|done]. intros _. by exists k.
      * split.
        -- destruct (serialize_qs v request kwargs
                       (QuerySet (obj :: rows) (Some (obj :: rows))) false)
             as [out|e] eqn:Hs; simpl; [done|].
           apply serialize_qs_Raise in Hs.
           repeat (apply elem_of_cons in Hs as [->|Hs]; [done|]).
           by apply elem_of_nil in Hs.
        -- intros (k' & [= <-] & Hf'). congruence.
      * apply filter_pk_Raise in Hf as Hv. subst e. simpl.
        split; [done|]. intros (k' & [= <-] & Hf'). congruence.
    + split; [done|]. by intros (k' & ? & _).
Qed.

(** An answer in the 400s has no effect on the table: when POST, PUT or
    DELETE is answered with 400, 404 or 405 the table is as it was before.
    DELETE also leaves the table alone when an exception escapes, so it
    changes the table only together with a 200. *)
Theorem client_errors_change_nothing `{Platform} v (m : http_method) request
    kwargs (db : store) :
  let outcome := dispatch v m request kwargs db in
  (status_of outcome.1 = 400 ∨ status_of outcome.1 = 404
   ∨ status_of outcome.1 = 405 → outcome.2 = db)
  ∧ (m = DELETE_ → status_of outcome.1 ≠ 200 → outcome.2 = db).
Proof.
  assert (∀ f, let outcome := run_form v request kwargs f db in
               status_of outcome.1 = 400 ∨ status_of outcome.1 = 404
               ∨ status_of outcome.1 = 405 → outcome.2 = db) as Hform.
  { intros f. simpl. unfold run_form. destruct (is_valid _ db); [|done].
    destruct (save _ db) as [obj db']. simpl.
    destruct (success_status v request kwargs (PyListOf [obj]) true) as [Hs|Hs];
      simpl in Hs; rewrite Hs; intros [?|[?|?]]; done. }
  simpl. split.
  - destruct m; simpl; [done | | |].
    + unfold post. destruct (add_form_class v) as [cls|]; [|done].
      destruct (json_decoder v (body request)) as [d|]; [|done]. apply Hform.
    + unfold put. destruct (edit_form_class v) as [cls|]; [|done].
      destruct (kwargs !! pk v) as [k|]; [|done].
      destruct (json_decoder v (body request)) as [d|]; simpl; [|done].
      destruct (get_pk db k) as [obj|[]]; simpl; try done. apply Hform.
    + unfold delete. destruct (kwargs !! pk v) as [k|]; [|done].
      destruct (filter_pk db k) as [rows|e]; simpl; [|done].
      destruct (negb _); [|done].
      destruct (serialize_qs v request kwargs (QuerySet rows (Some rows)) false);
        simpl; [|done].
      intros [?|[?|?]]; done.
  - intros -> Hnot. simpl in *. unfold delete in *.
    destruct (kwargs !! pk v) as [k|]; [|done].
    destruct (filter_pk db k) as [rows|e]; simpl in *; [|done].
    destruct (negb _); [|done].
    destruct (serialize_qs v request kwargs (QuerySet rows (Some rows)) false);
      simpl in *; done.
Qed.

Lemma client_errors_change_nothing_witness :
  (dispatch (writable_view None) PUT_ (request "{}" ∅) {["id" := PyStr "9"]}
     widgets).2 = widgets.
Proof.
  destruct (client_errors_change_nothing (writable_view None) PUT_ (request "{}" ∅)
              {["id" := PyStr "9"]} widgets) as [Hclient _].
  apply Hclient. right. left. reflexivity.
Defined.

(** ** Keys that select several rows, and keys the lookup rejects *)

(** When the lookup of a truthy key selects two rows or more, the three
    handlers that take a key part ways: GET fails with [Http404]; PUT, on a
    view with an edit form and with a body that decodes, lets
    [MultipleObjectsReturned] escape and runs no form; DELETE answers 200
    with the projection of the first selected row, and takes every selected
    row out of the table. *)
Theorem several_matches `{Platform} v request kwargs (db : store) (k : pyval)
    (o1 o2 : record) (rows : list record) :
  kwargs !! pk v = Some k →
  truthy k = true →
  filter_pk db k = Ok (o1 :: o2 :: rows) →
  get v request kwargs db = Raise Http404
  ∧ (∀ cls d, edit_form_class v = Some cls →
       json_decoder v (body request) = Some d →
       put v request kwargs db = (Raise MultipleObjectsReturned, db))
  ∧ (∀ data output, projection v o1 = Ok data →
       json_encoder v (PyDict data) = Some output →
       delete v request kwargs db = (Ok (success_response output), delete_pk db k))
  ∧ Forall (λ obj, ¬ In obj (delete_pk db k)) (o1 :: o2 :: rows).
Proof.
  intros Hk Htruthy Hf.
  assert (truthy (dict_get kwargs (pk v)) = true) as Hsingle.
  { unfold dict_get. by rewrite Hk. }
  split; [|split; [|split]].
  - unfold get, get_single_item, dict_getitem. rewrite Hsingle, Hk. simpl.
    by rewrite Hf.
  - intros cls d Hedit Hbody. unfold put, get_pk.
    by rewrite Hedit, Hk, Hbody, Hf.
  - intros data output Hdata Hout. unfold delete. rewrite Hk, Hf. simpl.
    destruct (serialize_qs_single v request kwargs o1 (o2 :: rows) false)
      as [-> _]; [done|].
    rewrite Hdata. simpl. unfold encode. by rewrite Hout.
  - apply filter_pk_Ok in Hf as (p & Hp & Hrows).
    apply Forall_forall. intros obj Hin Hkept.
    apply list_elem_of_In in Hin. rewrite Hrows in Hin.
    apply filter_In in Hin as [_ Hsel].
    apply (delete_pk_keeps db k p obj Hp) in Hkept as [_ Hnot]. congruence.
Qed.

Lemma several_matches_witness :
  get (writable_view None) (request "{}" ∅) {["id" := PyStr "3"]} twins
  = Raise Http404
  ∧ put (writable_view None) (request "{}" ∅) {["id" := PyStr "3"]} twins
    = (Raise MultipleObjectsReturned, twins)
  ∧ ∃ output,
      DjangboneJSONEncoder (PyDict (attrs (widget 3 "c"))) = Some output
      ∧ delete (writable_view None) (request "{}" ∅) {["id" := PyStr "3"]} twins
        = (Ok (success_response output), delete_pk twins (PyStr "3")).
Proof.
  destruct (several_matches (writable_view None) (request "{}" ∅)
              {["id" := PyStr "3"]} twins (PyStr "3") (widget 3 "c") (widget 3 "d") [])
    as (Hget & Hput & Hdelete & _); [reflexivity | reflexivity | reflexivity |].
  split; [exact Hget | split].
  - apply (Hput (λ _ obj, accepting obj) (PyDict ∅)); reflexivity.
  - eexists. split; [reflexivity|].
    apply (Hdelete (attrs (widget 3 "c"))); reflexivity.
Defined.

(** When the lookup rejects the key with [ValueError], GET (for a truthy
    key) and DELETE let the [ValueError] escape, and DELETE deletes nothing.
    PUT catches it in the handler meant for the body: on a view with an edit
    form the answer is 400 with the text [Invalid PUT JSON], whether the
    body decodes or not. *)
Theorem rejected_key `{Platform} v request kwargs (db : store) (k : pyval) :
  kwargs !! pk v = Some k →
  pk_exact k = None →
  (truthy k = true → get v request kwargs db = Raise ValueError)
  ∧ delete v request kwargs db = (Raise ValueError, db)
  ∧ (∀ cls, edit_form_class v = Some cls →
       put v request kwargs db = (Ok (text_response "Invalid PUT JSON" 400), db)).
Proof.
  intros Hk Hreject.
  assert (filter_pk db k = Raise ValueError) as Hf.
  { unfold filter_pk. by rewrite Hreject. }
  split; [|split].
  - intros Htruthy. unfold get, get_single_item, dict_get, dict_getitem.
    rewrite Hk. simpl. by rewrite Htruthy, Hf.
  - unfold delete. by rewrite Hk, Hf.
  - intros cls Hedit. unfold put, get_pk. rewrite Hedit, Hk, Hf.
    by destruct (json_decoder v (body request)).
Qed.

Lemma rejected_key_witness :
  put (writable_view None) (request "{}" ∅) {["id" := PyStr "abc"]} widgets
  = (Ok (text_response "Invalid PUT JSON" 400), widgets)
  ∧ delete (writable_view None) (request "{}" ∅) {["id" := PyStr "abc"]} widgets
    = (Raise ValueError, widgets).
Proof.
  destruct (rejected_key (writable_view None) (request "{}" ∅)
              {["id" := PyStr "abc"]} widgets (PyStr "abc"))
    as (_ & Hdelete & Hput); [reflexivity | reflexivity |].
  split; [|exact Hdelete].
  apply (Hput (λ _ obj, accepting obj)). reflexivity.
Defined.

(** ** Saving *)

Lemma run_form_saved `{Platform} v request kwargs (f : form) (db db' : store)
    (obj : record) :
  is_valid (offer_request request f) db = true →
  save (offer_request request f) db = (obj, db') →
  run_form v request kwargs f db
  = (data ← projection v obj;
     output ← encode v (PyDict data);
     Ok (success_response output), db').
Proof.
  intros Hvalid Hsave. unfold run_form. rewrite Hvalid, Hsave.
  destruct (serialize_qs_single v request kwargs obj [] true) as [_ ->]; [done|].
  by destruct (projection v obj).
Qed.

(** A form that validates is saved, and the answer is made from the record
    [save] returns: a 200 carrying its projection as a single object,
    whatever the page size, the page parameter and the URL are, with the
    table as [save] left it.  The table is as [save] left it also when the
    projection fails and the exception escapes.  In [put] the form is built
    on the row the lookup found. *)
Theorem saved_record_is_answered `{Platform} v request kwargs (db db' : store)
    (d : pyval) (obj : record) :
  json_decoder v (body request) = Some d →
  (∀ cls, add_form_class v = Some cls →
     is_valid (offer_request request (cls d)) db = true →
     save (offer_request request (cls d)) db = (obj, db') →
     post v request kwargs db
     = (data ← projection v obj;
        output ← encode v (PyDict data);
        Ok (success_response output), db'))
  ∧ (∀ cls k instance, edit_form_class v = Some cls →
       kwargs !! pk v = Some k →
       filter_pk db k = Ok [instance] →
       is_valid (offer_request request (cls d instance)) db = true →
       save (offer_request request (cls d instance)) db = (obj, db') →
       put v request kwargs db
       = (data ← projection v obj;
          output ← encode v (PyDict data);
          Ok (success_response output), db')).
Proof.
  intros Hbody. split.
  - intros cls Hadd Hvalid Hsave. unfold post. rewrite Hadd, Hbody.
    by apply run_form_saved.
  - intros cls k instance Hedit Hk Hf Hvalid Hsave.
    unfold put, get_pk. rewrite Hedit, Hk, Hbody, Hf. simpl.
    by apply run_form_saved.
Qed.

Lemma saved_record_is_answered_witness :
  ∃ output,
    DjangboneJSONEncoder (PyDict (attrs (widget 6 "f"))) = Some output
    ∧ post (writable_view (Some 2)) (request "{}" {["p" := "0"]}) ∅ widgets
      = (Ok (success_response output), (widgets ++ [widget 6 "f"])%list).
Proof.
  destruct (saved_record_is_answered (writable_view (Some 2))
              (request "{}" {["p" := "0"]}) ∅ widgets
              (widgets ++ [widget 6 "f"])%list (PyDict ∅) (widget 6 "f"))
    as [Hpost _]; [reflexivity|].
  eexists. split; [reflexivity|].
  etrans; [apply (Hpost (λ _, accepting (widget 6 "f"))); reflexivity|].
  reflexivity.
Defined.

(** [post] never looks at the URL: with or without an entry for the key,
    and whatever its value, the answer and the table afterwards are the
    same. *)
Theorem post_ignores_url `{Platform} v request (kwargs kwargs' : gmap string pyval)
    (db : store) :
  post v request kwargs db = post v request kwargs' db.
Proof.
  unfold post. destruct (add_form_class v) as [cls|]; [|done].
  destruct (json_decoder v (body request)) as [d|]; [|done].
  unfold run_form. destruct (is_valid _ db); [|done].
  destruct (save _ db) as [obj db']. by unfold serialize_qs.
Qed.

(** A request for one record never reads the query string: for a truthy
    key, GET and DELETE give the same outcome for any two requests, so no
    page parameter can move or break the answer for a single record. *)
Theorem single_record_ignores_query `{Platform} v (request request' : HttpRequest)
    kwargs (db : store) (k : pyval) :
  kwargs !! pk v = Some k →
  truthy k = true →
  get v request kwargs db = get v request' kwargs db
  ∧ delete v request kwargs db = delete v request' kwargs db.
Proof.
  intros Hk Htruthy.
  assert (truthy (dict_get kwargs (pk v)) = true) as Hsingle.
  { unfold dict_get. by rewrite Hk. }
  assert (∀ qs, serialize_qs v request kwargs qs false
                = serialize_qs v request' kwargs qs false) as Hser.
  { intros qs. unfold serialize_qs. by rewrite Hsingle, orb_true_r. }
  split.
  - unfold get, get_single_item. rewrite Hsingle.
    destruct (_ ≫= _) as [qs|e]; [|done]. by rewrite Hser.
  - unfold delete. rewrite Hk.
    destruct (filter_pk db k) as [rows|e]; [|done].
    destruct (negb _); [|done]. by rewrite Hser.
Qed.

Lemma single_record_ignores_query_witness :
  get (widget_view (Some 2)) (request "" {["p" := "0"]}) {["id" := PyStr "3"]} widgets
  = get (widget_view (Some 2)) (request "" ∅) {["id" := PyStr "3"]} widgets.
Proof.
  destruct (single_record_ignores_query (widget_view (Some 2))
              (request "" {["p" := "0"]}) (request "" ∅)
              {["id" := PyStr "3"]} widgets (PyStr "3")) as [Hget _];
    [reflexivity | reflexivity |].
  exact Hget.
Defined.
